(** * StreamPipe: the request handler of [pipe.py]

    A shallow embedding of [StreamHandler.serve_stream]: the name check, the
    routing-table lookup, the session set-up, the variant selection and the
    chunked pump loop with its [try]/[except]/[finally] structure.

    The handler talks to two outside parties: the HTTP client (through
    [send_error], [end_headers], [wfile.write]) and the streamlink backend
    (through [session.streams], [stream.open], [stream_fd.read],
    [stream_fd.close]).  Every call made to either of them is recorded, in
    order, in a trace; what each call answers is given by the environment. *)

From Stdlib Require Import ZArith String Ascii Strings.Byte Floats HexadecimalString.
From Stdlib Require DecimalString.
From stdpp Require Import base list strings gmap.

Local Open Scope string_scope.
Local Open Scope list_scope.
Local Open Scope stdpp_scope.
#[local] Set Warnings "-register-all".

(** ** Values *)

(** What [yaml.safe_load] produces for the configuration file.  Mapping keys
    are taken to be strings, the only keys the handler ever looks up. *)
Inductive yaml : Type :=
| YNull
| YBool (b : bool)
| YInt (n : Z)
| YFloat (f : float)
| YStr (s : string)
| YList (l : list yaml)
| YDict (d : gmap string yaml).

(** Python truth value, as tested by [if not url]. *)
Definition truthy (v : yaml) : bool :=
  match v with
  | YNull => false
  | YBool b => b
  | YInt n => negb (n =? 0)%Z
  | YFloat f => negb (PrimFloat.eqb f 0%float)
  | YStr s => negb (String.eqb s "")
  | YList l => match l with [] => false | _ :: _ => true end
  | YDict d => negb (bool_decide (d = ∅))
  end.

(** [d.get(key, default)] *)
Definition dict_get (d : gmap string yaml) (key : string) (default : yaml) : yaml :=
  match d !! key with
  | Some v => v
  | None => default
  end.

(** A [bytes] object. *)
Abbreviation bytes := (list byte).

(** [s.encode()] on the pure-ASCII strings the handler encodes. *)
Definition encode (s : string) : bytes := list_byte_of_string s.

(** The two-character string written ["\r\n"] in the source. *)
Definition CRLF : string := String "013" (String "010" EmptyString).

(** [f"{n:x}"]: lower-case hexadecimal without prefix. *)
Definition hex (n : nat) : string :=
  NilZero.string_of_uint (N.to_hex_uint (N.of_nat n)).

(** ** Exceptions *)

(** The exception classes the handler tells apart.  [OtherException] is any
    other subclass of [Exception]; [BaseExc] is one outside [Exception]
    ([KeyboardInterrupt], [SystemExit]), which no clause of the handler
    catches. *)
Inductive exn_class : Type :=
| BrokenPipeError
| ConnectionResetError
| ConnectionAbortedError
| NoPluginError
| NoStreamsError
| StreamError
| OtherException
| BaseExc.

(** An exception object: its class and its [str(e)]. *)
Record exn : Type := MkExn { exn_cls : exn_class; exn_str : string }.

Inductive result (A : Type) : Type :=
| Ok (a : A)
| Exc (e : exn).
Arguments Ok {A} a.
Arguments Exc {A} e.

(** ** The backend *)

(** An opened stream, [stream_fd]: what its successive [read] calls answer
    (once the list is used up every further [read] answers [b""]), and what
    [close] answers. *)
Record handle : Type := MkHandle {
  h_reads : list (result bytes);
  h_close : result unit
}.

(** A stream object of the [streams] dict: its truth value (for the [or] of
    the selection) and what its [open] answers. *)
Record variant : Type := MkVariant {
  v_truthy : bool;
  v_open : result handle
}.

(** [session.streams(url)] for a session carrying the given options: an
    exception or the dict of streams, in its enumeration order. *)
Definition backend : Type :=
  gmap string yaml -> yaml -> result (list (string * variant)).

(** ** Traces *)

Inductive call : Type :=
| SendError (code : Z) (message : string)
| SendResponse (code : Z)
| SendHeader (keyword value : string)
| EndHeaders
| Write (data : bytes)
| Flush
| SetOption (key : string) (value : yaml)
| Streams (url : yaml)
| Open (v : variant)
| Read (size : yaml)
| Close
| Print (line : string).

(** A call that returned, or a call that raised. *)
Inductive event : Type :=
| Returned (c : call)
| Raised (c : call) (e : exn).

Definition call_of (ev : event) : call :=
  match ev with
  | Returned c => c
  | Raised c _ => c
  end.

(** The client: what its [k]-th socket operation does ([None]: it succeeds). *)
Definition client : Type := nat -> option exn.

(** ** The handler monad

    A computation starts at the index of the next socket operation and yields
    the calls it made, the index it stopped at, and a value or the exception
    in flight. *)
Definition M (A : Type) : Type := nat -> list event * nat * result A.

Definition ret {A} (a : A) : M A := fun k => ([], k, Ok a).

Definition bind {A B} (m : M A) (f : A -> M B) : M B := fun k =>
  match m k with
  | (t1, k1, Ok a) => let '(t2, k2, r) := f a k1 in (t1 ++ t2, k2, r)
  | (t1, k1, Exc e) => (t1, k1, Exc e)
  end.

(** [try: m  except ...: h]; [h e = None] when no clause matches [e]. *)
Definition try_except {A} (m : M A) (h : exn -> option (M A)) : M A := fun k =>
  match m k with
  | (t1, k1, Ok a) => (t1, k1, Ok a)
  | (t1, k1, Exc e) =>
      match h e with
      | Some handler => let '(t2, k2, r) := handler k1 in (t1 ++ t2, k2, r)
      | None => (t1, k1, Exc e)
      end
  end.

(** [try: m  finally: f]: [f] always runs; an exception of [f] replaces the
    outcome of [m]. *)
Definition try_finally {A} (m : M A) (f : M unit) : M A := fun k =>
  let '(t1, k1, r) := m k in
  match f k1 with
  | (t2, k2, Ok _) => (t1 ++ t2, k2, r)
  | (t2, k2, Exc e) => (t1 ++ t2, k2, Exc e)
  end.

Declare Scope relay_scope.
Delimit Scope relay_scope with relay.
Notation "x <- m ;; k" := (bind m (fun x => k))
  (at level 100, m at next level, k at level 200, right associativity) : relay_scope.
Notation "m ;; k" := (bind m (fun _ => k))
  (at level 100, k at level 200, right associativity) : relay_scope.

Definition raise {A} (e : exn) : M A := fun k => ([], k, Exc e).

(** The value of an expression that may raise without calling anybody. *)
Definition lift {A} (r : result A) : M A :=
  match r with
  | Ok a => ret a
  | Exc e => raise e
  end.

(** A call that cannot raise. *)
Definition emit (c : call) : M unit := fun k => ([Returned c], k, Ok tt).

(** A backend call with a given answer. *)
Definition answer {A} (c : call) (r : result A) : M A := fun k =>
  match r with
  | Ok a => ([Returned c], k, Ok a)
  | Exc e => ([Raised c e], k, Exc e)
  end.

(** ** Name syntax

    [stream_name] comes from the request line, which [http.server] decodes as
    ISO-8859-1: every character is a code point below 256, which is what an
    [ascii] holds.  On that range [str.islower] and [str.isdigit] are the
    following tables. *)
Definition islower (c : ascii) : bool :=
  let n := N_of_ascii c in
  ((97 <=? n) && (n <=? 122) || (n =? 170) || (n =? 181) || (n =? 186)
   || (223 <=? n) && (n <=? 246) || (248 <=? n) && (n <=? 255))%N.

Definition isdigit (c : ascii) : bool :=
  let n := N_of_ascii c in
  ((48 <=? n) && (n <=? 57) || (n =? 178) || (n =? 179) || (n =? 185))%N.

(** The condition of line 50, for one character and for the whole name. *)
Definition name_char (c : ascii) : bool :=
  islower c || isdigit c || Ascii.eqb c "-".

Definition name_ok (stream_name : string) : bool :=
  forallb name_char (list_ascii_of_string stream_name).

(** ** Packet alignment *)

(** [data[:-r]] *)
Definition drop_last (data : bytes) (r : nat) : bytes :=
  if Nat.eqb r 0 then [] else take (length data - r) data.

(** Lines 105-108: the read as it is framed. *)
Definition trim (data : bytes) : bytes :=
  let ts_packet_size := 188 in
  let remainder := length data mod ts_packet_size in
  if negb (Nat.eqb remainder 0) && Nat.ltb ts_packet_size (length data)
  then drop_last data remainder
  else data.

Section Handler.
Local Open Scope relay_scope.

Variable streams_config : gmap string yaml.
Variable streamlink_options : gmap string yaml.
Variable session_streams : backend.
Variable peer : client.

(** A socket operation: the client decides whether it raises.  A call that
    raises may have sent a part of its data before it did; the trace records
    that it raised, not how much went out. *)
Definition socket (c : call) : M unit := fun k =>
  match peer k with
  | None => ([Returned c], S k, Ok tt)
  | Some e => ([Raised c e], S k, Exc e)
  end.

(** [send_error] is taken as one socket operation, which raises only when
    the socket does: the messages it is given here are made of a stream name
    and of [exn_str], strings of code points below 256, which its status
    line can encode.  [send_response] and [send_header] only fill the header
    buffer that [end_headers] writes; [flush] has nothing to do on the
    unbuffered [wfile] of the request handler. *)
Definition send_error (code : Z) (message : string) : M unit :=
  socket (SendError code message).
Definition send_response (code : Z) : M unit := emit (SendResponse code).
Definition send_header (keyword value : string) : M unit :=
  emit (SendHeader keyword value).
Definition end_headers : M unit := socket EndHeaders.
Definition wfile_write (data : bytes) : M unit := socket (Write data).
Definition wfile_flush : M unit := emit Flush.

(** Lines 98-115: [while True], on the reads that are left. *)
Fixpoint pump (buffer_size : yaml) (reads : list (result bytes)) : M unit :=
  match reads with
  | [] => _ <- answer (Read buffer_size) (Ok ([] : bytes)) ;; ret tt
  | r :: reads' =>
      data <- answer (Read buffer_size) r ;;
      match data with
      | [] => ret tt
      | _ :: _ =>
          let data := trim data in
          match data with
          | [] => ret tt
          | _ :: _ =>
              let chunk_size := length data in
              wfile_write (encode (hex chunk_size +:+ CRLF)) ;;
              wfile_write data ;;
              wfile_write (encode CRLF) ;;
              wfile_flush
          end ;;
          pump buffer_size reads'
      end
  end.

(** The clause of line 119. *)
Definition client_gone (e : exn) : bool :=
  match exn_cls e with
  | BrokenPipeError | ConnectionResetError | ConnectionAbortedError => true
  | _ => false
  end.

(** Lines 97-124: the inner [try] with its [except] and [finally]. *)
Definition relay (stream_name : string) (buffer_size : yaml) (stream_fd : handle)
  : M unit :=
  try_finally
    (try_except
       (pump buffer_size (h_reads stream_fd) ;;
        wfile_write (encode ("0" +:+ CRLF +:+ CRLF)))
       (fun e =>
          if client_gone e
          then Some (emit (Print ("Client disconnected from stream '" +:+ stream_name +:+ "'")))
          else None))
    (answer Close (h_close stream_fd)).

(** Line 86: [streams.get("best") or list(streams.values())[0]]. *)
Definition dict_values {A} (d : list (string * A)) : list A := map snd d.

Definition streams_get (d : list (string * variant)) (key : string) : option variant :=
  snd <$> find (fun kv => String.eqb (fst kv) key) d.

Definition first_value (streams : list (string * variant)) : result variant :=
  match dict_values streams with
  | v :: _ => Ok v
  | [] => Exc (MkExn OtherException "list index out of range")
  end.

Definition select (streams : list (string * variant)) : result variant :=
  match streams_get streams "best" with
  | Some v => if v_truthy v then Ok v else first_value streams
  | None => first_value streams
  end.

(** Lines 126-133: the clauses of the outer [try]. *)
Definition outer_handler (e : exn) : option (M unit) :=
  match exn_cls e with
  | NoPluginError => Some (send_error 502 "No plugin found for this stream URL")
  | NoStreamsError => Some (send_error 503 "No streams available from source")
  | StreamError => Some (send_error 500 ("Stream error: " +:+ exn_str e))
  | BaseExc => None
  | _ => Some (send_error 500 ("Server error: " +:+ exn_str e))
  end.

(** The option values of lines 70-72 and 94. *)
Definition user_agent : yaml := dict_get streamlink_options "user_agent" (YStr "StreamPipe/1.0").
Definition threads : yaml := dict_get streamlink_options "threads" (YInt 4).
Definition timeout : yaml := dict_get streamlink_options "timeout" (YFloat 20).
Definition buffer_size : yaml := dict_get streamlink_options "buffer_size" (YInt 8388608).

(** The session after the four [set_option] calls of lines 74-77. *)
Definition session_options : gmap string yaml :=
  <["ringbuffer-size" := YInt (32 * 1024 * 1024)]>
    (<["stream-segment-threads" := threads]>
       (<["http-timeout" := timeout]>
          (<["http-headers" := YDict {["User-Agent" := user_agent]}]> ∅))).

(** Lines 58-62. *)
Definition route_url (stream_config : yaml) : yaml :=
  match stream_config with
  | YDict d => dict_get d "url" YNull
  | _ => stream_config
  end.

(** Lines 68-133, for a route whose [url] is set. *)
Definition stream_url (stream_name : string) (url : yaml) : M unit :=
  emit (SetOption "http-headers" (YDict {["User-Agent" := user_agent]})) ;;
  emit (SetOption "http-timeout" timeout) ;;
  emit (SetOption "stream-segment-threads" threads) ;;
  emit (SetOption "ringbuffer-size" (YInt (32 * 1024 * 1024))) ;;
  try_except
    (streams <- answer (Streams url) (session_streams session_options url) ;;
     match streams with
     | [] => send_error 404 "No streams available"
     | _ :: _ =>
         stream <- lift (select streams) ;;
         send_response 200 ;;
         send_header "Content-Type" "video/MP2T" ;;
         send_header "Transfer-Encoding" "chunked" ;;
         send_header "Cache-Control" "no-cache" ;;
         end_headers ;;
         stream_fd <- answer (Open stream) (v_open stream) ;;
         relay stream_name buffer_size stream_fd
     end)
    outer_handler.

(** [serve_stream], lines 49-133. *)
Definition serve_stream (stream_name : string) : M unit :=
  if negb (name_ok stream_name) then send_error 404 "Not Found"
  else
    match streams_config !! stream_name with
    | None => send_error 404 "Not Found"
    | Some stream_config =>
        let url := route_url stream_config in
        if negb (truthy url)
        then send_error 500 ("No URL configured for stream '" +:+ stream_name +:+ "'")
        else stream_url stream_name url
    end.

End Handler.


(** ** The rest of the request handler *)

(** [path.strip("/")]: the slashes at both ends go. *)
Fixpoint lstrip_slash (path : string) : string :=
  match path with
  | EmptyString => EmptyString
  | String c rest => if Ascii.eqb c "/" then lstrip_slash rest else path
  end.

Fixpoint rstrip_slash (path : string) : string :=
  match path with
  | EmptyString => EmptyString
  | String c rest =>
      match rstrip_slash rest with
      | EmptyString => if Ascii.eqb c "/" then EmptyString else String c EmptyString
      | kept => String c kept
      end
  end.

Definition strip_slash (path : string) : string := rstrip_slash (lstrip_slash path).

(** [str(n)] of a length. *)
Definition str_of_nat (n : nat) : string :=
  DecimalString.NilZero.string_of_uint (Nat.to_uint n).

(** The double quote, which a string literal cannot hold. *)
Definition DQ : string := String "034" EmptyString.

(** The body of the health check for a table of [n] routes (lines 44-46). *)
Definition health_body (n : nat) : bytes :=
  encode ("{" +:+ DQ +:+ "status" +:+ DQ +:+ ": " +:+ DQ +:+ "ok" +:+ DQ +:+ ", "
          +:+ DQ +:+ "streams" +:+ DQ +:+ ": ")
  ++ encode (str_of_nat n) ++ encode "}".

(** [serve_health_check], lines 39-47. *)
Definition serve_health_check (streams_config : gmap string yaml) (peer : client)
  : M unit :=
  (send_response 200 ;;
   send_header "Content-Type" "application/json" ;;
   end_headers peer ;;
   wfile_write peer (health_body (size streams_config)))%relay.

(** [do_GET], lines 31-37. *)
Definition do_GET (streams_config streamlink_options : gmap string yaml)
  (session_streams : backend) (peer : client) (path : string) : M unit :=
  let path := strip_slash path in
  if String.eqb path "" || String.eqb path "health"
  then serve_health_check streams_config peer
  else serve_stream streams_config streamlink_options session_streams peer path.

(** ** Reading a run *)

(** The calls of a trace, whatever they answered. *)
Definition calls (t : list event) : list call := map call_of t.

(** The body written: the data of the [wfile.write] calls that returned, in
    order.  What a call that raised may have sent of its data is not
    counted. *)
Definition written (ev : event) : bytes :=
  match ev with
  | Returned (Write data) => data
  | _ => []
  end.

Definition body_of (t : list event) : bytes := flat_map written t.

Definition is_close (ev : event) : bool :=
  match call_of ev with
  | Close => true
  | _ => false
  end.

(** How many times [stream_fd.close()] was called. *)
Definition closes (t : list event) : nat := length (List.filter is_close t).

Definition trace_of {A} (run : list event * nat * result A) : list event := run.1.1.
Definition outcome_of {A} (run : list event * nat * result A) : result A := run.2.

(** The pieces of one chunk as lines 112-114 write them. *)
Definition size_line (chunk : bytes) : bytes := encode (hex (length chunk) +:+ CRLF).

Definition frame_writes (chunk : bytes) : list bytes :=
  [size_line chunk; chunk; encode CRLF].

Definition frame (chunk : bytes) : bytes := size_line chunk ++ chunk ++ encode CRLF.

(** [b"0\r\n\r\n"] *)
Definition terminal : bytes := encode ("0" +:+ CRLF +:+ CRLF).

(** The events of one full turn of the loop on a read that returned [data]. *)
Definition cycle (buffer_size : yaml) (data : bytes) : list event :=
  [Returned (Read buffer_size);
   Returned (Write (size_line (trim data)));
   Returned (Write (trim data));
   Returned (Write (encode CRLF));
   Returned Flush].

(** The events of a turn whose [i]-th write ([i] = 0, 1, 2) raised [e]. *)
Definition broken_cycle (buffer_size : yaml) (data : bytes) (i : nat) (e : exn)
  : list event :=
  Returned (Read buffer_size)
  :: map (fun w => Returned (Write w)) (take i (frame_writes (trim data)))
  ++ match frame_writes (trim data) !! i with
     | Some w => [Raised (Write w) e]
     | None => []
     end.

(** The next read answers [b""]: the script is used up or says so. *)
Definition at_eof (reads : list (result bytes)) : bool :=
  match reads with
  | [] => true
  | Ok [] :: _ => true
  | _ => false
  end.

Definition is_ok {A} (r : result A) : bool :=
  match r with
  | Ok _ => true
  | Exc _ => false
  end.

(** What the handler has called once the response head is written, and once
    [stream.open()] has returned. *)
Definition setup (opts : gmap string yaml) (url : yaml) : list event :=
  [Returned (SetOption "http-headers" (YDict {["User-Agent" := user_agent opts]}));
   Returned (SetOption "http-timeout" (timeout opts));
   Returned (SetOption "stream-segment-threads" (threads opts));
   Returned (SetOption "ringbuffer-size" (YInt (32 * 1024 * 1024)));
   Returned (Streams url);
   Returned (SendResponse 200);
   Returned (SendHeader "Content-Type" "video/MP2T");
   Returned (SendHeader "Transfer-Encoding" "chunked");
   Returned (SendHeader "Cache-Control" "no-cache");
   Returned EndHeaders].

Definition preamble (opts : gmap string yaml) (url : yaml) (stream : variant)
  : list event :=
  setup opts url ++ [Returned (Open stream)].

(** The event of a socket call and of a backend call, by what they answer. *)
Definition socket_event (peer : client) (k : nat) (c : call) : event :=
  match peer k with
  | None => Returned c
  | Some e => Raised c e
  end.

Definition answer_event {A} (c : call) (r : result A) : event :=
  match r with
  | Ok _ => Returned c
  | Exc e => Raised c e
  end.

(** What the clause of line 119 adds to the trace for the exception that
    left the loop, if any. *)
Definition goodbye (stream_name : string) (left : option exn) : list event :=
  match left with
  | Some e =>
      if client_gone e
      then [Returned (Print ("Client disconnected from stream '" +:+ stream_name +:+ "'"))]
      else []
  | None => []
  end.

(** How the inner [try] ends, given the exception that left the loop or the
    last write (if any) and what [close] answers. *)
Definition relay_outcome (left : option exn) (cl : result unit) : result unit :=
  match cl with
  | Exc e => Exc e
  | Ok _ =>
      match left with
      | Some e => if client_gone e then Ok tt else Exc e
      | None => Ok tt
      end
  end.

(** The answer of a socket operation, as a result. *)
Definition socket_result (peer : client) (k : nat) : result unit :=
  match peer k with
  | None => Ok tt
  | Some e => Exc e
  end.

(** The call each clause of lines 126-133 makes for the exception it
    catches; none for an exception that is not an [Exception]. *)
Definition error_page (e : exn) : option call :=
  match exn_cls e with
  | NoPluginError => Some (SendError 502 "No plugin found for this stream URL")
  | NoStreamsError => Some (SendError 503 "No streams available from source")
  | StreamError => Some (SendError 500 ("Stream error: " +:+ exn_str e))
  | BaseExc => None
  | _ => Some (SendError 500 ("Server error: " +:+ exn_str e))
  end.

(** How the outer [try] ends when the exception [e] reaches it after the
    calls [t], with [k] the index of the next socket operation. *)
Definition handled (peer : client) (t : list event) (k : nat) (e : exn)
  : list event * nat * result unit :=
  match error_page e with
  | Some c => (t ++ [socket_event peer k c], S k, socket_result peer k)
  | None => (t, k, Exc e)
  end.

(** The four [set_option] calls of lines 74-77. *)
Definition options_set (opts : gmap string yaml) : list event :=
  [Returned (SetOption "http-headers" (YDict {["User-Agent" := user_agent opts]}));
   Returned (SetOption "http-timeout" (timeout opts));
   Returned (SetOption "stream-segment-threads" (threads opts));
   Returned (SetOption "ringbuffer-size" (YInt (32 * 1024 * 1024)))].

(** How many [open()] calls returned a handle. *)
Definition is_returned_open (ev : event) : bool :=
  match ev with
  | Returned (Open _) => true
  | _ => false
  end.

Definition handles (t : list event) : nat := length (List.filter is_returned_open t).

(** The streams that [open()] was called on. *)
Definition opened (ev : event) : list variant :=
  match call_of ev with
  | Open v => [v]
  | _ => []
  end.

Definition opens (t : list event) : list variant := flat_map opened t.

(** The calls the loop makes when it reads [buffer_size] bytes at a time. *)
Definition loop_call (buffer_size : yaml) (c : call) : Prop :=
  match c with
  | Read size => size = buffer_size
  | Write _ | Flush => True
  | _ => False
  end.

(** The calls of the inner [try]: those of the loop, the [print] of line 120
    and [close]. *)
Definition relay_call (buffer_size : yaml) (c : call) : Prop :=
  match c with
  | Read size => size = buffer_size
  | Write _ | Flush | Print _ | Close => True
  | _ => False
  end.

(** A call that, if it is a read, asks for [buffer_size] bytes. *)
Definition reads_by (buffer_size : yaml) (c : call) : Prop :=
  match c with
  | Read size => size = buffer_size
  | _ => True
  end.

(** ** The spec's wording, for comparison *)

(** The name syntax as the spec words it: a lowercase ASCII letter, an ASCII
    digit or a hyphen. *)
Definition ascii_name_char (c : ascii) : bool :=
  let n := N_of_ascii c in
  ((97 <=? n) && (n <=? 122) || (48 <=? n) && (n <=? 57) || (n =? 45))%N.

(** The Latin-1 characters beyond ASCII that [str.islower] or [str.isdigit]
    accept: the ordinal indicators, the micro sign, the lowercase letters
    from sharp s to y with diaeresis (the division sign apart) and the
    superscripts one, two and three. *)
Definition latin1_name_char (c : ascii) : bool :=
  let n := N_of_ascii c in
  ((n =? 170) || (n =? 181) || (n =? 186)
   || (223 <=? n) && (n <=? 246) || (248 <=? n) && (n <=? 255)
   || (n =? 178) || (n =? 179) || (n =? 185))%N.

(** An option as the spec words it: the route's own value when the
    descriptor is a mapping that carries the key, else the global value or
    the default. *)
Definition merged_option (desc : yaml) (opts : gmap string yaml) (key : string)
  (default : yaml) : yaml :=
  match desc with
  | YDict d =>
      match d !! key with
      | Some v => v
      | None => dict_get opts key default
      end
  | _ => dict_get opts key default
  end.

(** ** Sample environments *)

Definition zeros (n : nat) : bytes := repeat "000"%byte n.

Definition foo_config : gmap string yaml := {["foo" := YStr "http://x/y.m3u8"]}.

(** A route that carries overrides of its own. *)
Definition override_route : yaml :=
  YDict (<["url" := YStr "http://x/y.m3u8"]>
           (<["user_agent" := YStr "Mozilla/5.0"]>
              (<["buffer_size" := YInt 188]> ∅))).

Definition override_config : gmap string yaml := {["foo" := override_route]}.

(** The one-character name whose code point is 233, e with acute accent, and
    a routing table that has it as a key. *)
Definition e_acute : string := String "233" EmptyString.

Definition e_acute_config : gmap string yaml := {[e_acute := YStr "http://x/y.m3u8"]}.

(** A backend with the single variant ["best"], whose [open] answers [h]. *)
Definition one_stream (h : result handle) : backend :=
  fun _ _ => Ok [("best", MkVariant true h)].

(** A client that takes every write. *)
Definition patient : client := fun _ => None.

(** A client whose [n]-th socket operation, and no other, finds the pipe broken. *)
Definition broken_pipe : exn := MkExn BrokenPipeError "[Errno 32] Broken pipe".

Definition hangup_at (n : nat) : client :=
  fun k => if Nat.eqb k n then Some broken_pipe else None.

(** A client that is gone from its [n]-th socket operation on. *)
Definition gone_from (n : nat) : client :=
  fun k => if Nat.leb n k then Some broken_pipe else None.

(** ** The trimming *)

Lemma drop_last_length (data : bytes) (r : nat) :
  0 < r -> length (drop_last data r) = length data - r.
Proof.
  intros Hr. unfold drop_last.
  destruct (Nat.eqb_spec r 0) as [->|_]; [lia|].
  rewrite length_take. lia.
Qed.

Lemma trim_cases (data : bytes) :
  (length data mod 188 <> 0 /\ 188 < length data /\
   trim data = take (length data - length data mod 188) data)
  \/ ((length data mod 188 = 0 \/ length data <= 188) /\ trim data = data).
Proof.
  unfold trim, drop_last.
  destruct (Nat.eqb_spec (length data mod 188) 0) as [H0|H0]; cbn [negb andb].
  - right. split; [by left | done].
  - destruct (Nat.ltb_spec 188 (length data)) as [Hlt|Hle].
    + left. done.
    + right. split; [by right | done].
Qed.

Lemma trim_length (data : bytes) :
  data <> [] ->
  0 < length (trim data) /\
  (length (trim data) mod 188 = 0 \/ (length data < 188 /\ trim data = data)).
Proof.
  intros Hne.
  assert (0 < length data) as Hpos by (destruct data; [done | cbn; lia]).
  destruct (trim_cases data) as [(Hr & Hlt & ->) | ([H0 | Hle] & ->)].
  - pose proof (Nat.mod_upper_bound (length data) 188 ltac:(lia)) as Hub.
    pose proof (Nat.div_mod_eq (length data) 188) as Hdm.
    rewrite length_take, Nat.min_l by lia.
    replace (length data - length data mod 188)
      with (188 * (length data / 188)) by lia.
    split.
    + assert (0 < length data / 188) by (apply Nat.div_str_pos; lia). lia.
    + left. rewrite Nat.mul_comm. apply Nat.Div0.mod_mul.
  - split; [done | by left].
  - split; [done|].
    destruct (decide (length data = 188)) as [->|Hn]; [by left | right; split; [lia | done]].
Qed.

Lemma trim_nonempty (data : bytes) : data <> [] -> trim data <> [].
Proof.
  intros Hne Ht. destruct (trim_length data Hne) as [Hpos _].
  rewrite Ht in Hpos. cbn in Hpos. lia.
Qed.

(** ** One turn of the loop *)

Section Pump.
Variable peer : client.
Variable buffer_size : yaml.

Lemma pump_nil (k : nat) :
  pump peer buffer_size [] k = ([Returned (Read buffer_size)], k, Ok tt).
Proof. reflexivity. Qed.

Lemma pump_eof (reads : list (result bytes)) (k : nat) :
  at_eof reads = true ->
  pump peer buffer_size reads k = ([Returned (Read buffer_size)], k, Ok tt).
Proof.
  destruct reads as [|[[|b d]|e] rest]; cbn [at_eof]; intros H; try done.
Qed.

Lemma pump_read_raises (e : exn) (rest : list (result bytes)) (k : nat) :
  pump peer buffer_size (Exc e :: rest) k = ([Raised (Read buffer_size) e], k, Exc e).
Proof. reflexivity. Qed.

Lemma pump_cycle (data : bytes) (rest : list (result bytes)) (k : nat) :
  data <> [] ->
  peer k = None -> peer (S k) = None -> peer (S (S k)) = None ->
  pump peer buffer_size (Ok data :: rest) k =
  let '(t, k', r) := pump peer buffer_size rest (S (S (S k))) in
  (cycle buffer_size data ++ t, k', r).
Proof.
  intros Hne H0 H1 H2.
  pose proof (trim_nonempty data Hne) as Hte.
  destruct data as [|b d]; [done|].
  cbn [pump]. unfold bind at 1. cbn [answer].
  unfold cycle, size_line.
  destruct (trim (b :: d)) as [|b' d'] eqn:Ht; [done|].
  unfold bind, wfile_write, wfile_flush, socket, emit.
  rewrite H0, H1, H2.
  destruct (pump peer buffer_size rest (S (S (S k)))) as [[t k'] r].
  reflexivity.
Qed.


Lemma pump_broken (data : bytes) (rest : list (result bytes)) (k i : nat) (e : exn) :
  data <> [] -> i < 3 ->
  (forall j, j < i -> peer (k + j) = None) ->
  peer (k + i) = Some e ->
  pump peer buffer_size (Ok data :: rest) k =
  (broken_cycle buffer_size data i e, S (k + i), Exc e).
Proof.
  intros Hne Hi Hok Hbad.
  pose proof (trim_nonempty data Hne) as Hte.
  destruct data as [|b d]; [done|].
  cbn [pump]. unfold bind at 1. cbn [answer].
  unfold broken_cycle, frame_writes, size_line.
  destruct (trim (b :: d)) as [|b' d'] eqn:Ht; [done|].
  unfold bind, wfile_write, wfile_flush, socket, emit.
  destruct i as [|[|[|i]]]; [| | |lia].
  - rewrite Nat.add_0_r in Hbad. rewrite Hbad. by rewrite Nat.add_0_r.
  - pose proof (Hok 0 ltac:(lia)) as H0. rewrite Nat.add_0_r in H0.
    rewrite Nat.add_1_r in Hbad. rewrite H0, Hbad. by rewrite Nat.add_1_r.
  - pose proof (Hok 0 ltac:(lia)) as H0. rewrite Nat.add_0_r in H0.
    pose proof (Hok 1 ltac:(lia)) as H1. rewrite Nat.add_1_r in H1.
    replace (k + 2) with (S (S k)) in * by lia.
    by rewrite H0, H1, Hbad.
Qed.

Lemma pump_blocks (ds : list bytes) (tail : list (result bytes)) (k : nat) :
  Forall (fun d => d <> []) ds ->
  (forall j, j < 3 * length ds -> peer (k + j) = None) ->
  pump peer buffer_size (map Ok ds ++ tail) k =
  let '(t, k', r) := pump peer buffer_size tail (k + 3 * length ds) in
  (flat_map (cycle buffer_size) ds ++ t, k', r).
Proof.
  intros Hne. revert k. induction Hne as [|d ds Hd _ IH]; intros k Hok.
  - cbn [map app flat_map length]. rewrite Nat.mul_0_r, Nat.add_0_r.
    by destruct (pump peer buffer_size tail k) as [[t k'] r].
  - cbn [map app length] in *.
    rewrite pump_cycle; [|done| | |].
    + rewrite IH.
      * replace (S (S (S k)) + 3 * length ds) with (k + 3 * S (length ds)) by lia.
        destruct (pump peer buffer_size tail _) as [[t k'] r].
        cbn [flat_map]. by rewrite <- app_assoc.
      * intros j Hj. replace (S (S (S k)) + j) with (k + (3 + j)) by lia.
        apply Hok. lia.
    + rewrite <- (Nat.add_0_r k). apply Hok. lia.
    + rewrite <- (Nat.add_1_r k). apply Hok. lia.
    + replace (S (S k)) with (k + 2) by lia. apply Hok. lia.
Qed.

(** The loop never closes the stream itself. *)
Lemma closes_app (t1 t2 : list event) : closes (t1 ++ t2) = closes t1 + closes t2.
Proof. unfold closes. by rewrite List.filter_app, length_app. Qed.

Lemma pump_closes (reads : list (result bytes)) (k : nat) :
  closes (trace_of (pump peer buffer_size reads k)) = 0.
Proof.
  revert k. induction reads as [|r reads IH]; intros k; [done|].
  destruct r as [[|b d]|e]; [done| |done].
  cbn [pump]. unfold bind at 1. cbn [answer].
  destruct (trim (b :: d)) as [|b' d'].
  - unfold bind, ret. specialize (IH k).
    destruct (pump peer buffer_size reads k) as [[t k'] r]. exact IH.
  - unfold bind, wfile_write, wfile_flush, socket, emit.
    destruct (peer k); [done|].
    destruct (peer (S k)); [done|].
    destruct (peer (S (S k))); [done|].
    specialize (IH (S (S (S k)))).
    destruct (pump peer buffer_size reads _) as [[t k'] r]. exact IH.
Qed.

End Pump.

(** ** The inner [try] *)

Lemma pump_outcome (peer : client) (bs : yaml) (reads : list (result bytes)) (k : nat) :
  forall e, outcome_of (pump peer bs reads k) = Exc e ->
            (exists j, peer j = Some e) \/ In (Exc e) reads.
Proof.
  revert k. induction reads as [|r reads IH]; intros k e; [done|].
  destruct r as [[|b d]|e']; [done| |].
  - cbn [pump]. unfold bind at 1. cbn [answer].
    destruct (trim (b :: d)) as [|b' d'].
    + unfold bind, ret. specialize (IH k e).
      destruct (pump peer bs reads k) as [[t k'] r]. intros H.
      destruct (IH H) as [?|?]; [by left | right; by right].
    + unfold bind, wfile_write, wfile_flush, socket, emit.
      destruct (peer k) eqn:H0; [intros [= <-]; left; eauto|].
      destruct (peer (S k)) eqn:H1; [intros [= <-]; left; eauto|].
      destruct (peer (S (S k))) eqn:H2; [intros [= <-]; left; eauto|].
      specialize (IH (S (S (S k))) e).
      destruct (pump peer bs reads _) as [[t k'] r]. intros H.
      destruct (IH H) as [?|?]; [by left | right; by right].
  - intros [= <-]. right. by left.
Qed.

Lemma relay_closes (peer : client) (name : string) (bs : yaml) (h : handle) (k : nat) :
  closes (trace_of (relay peer name bs h k)) = 1.
Proof.
  unfold relay, try_finally, try_except, bind.
  pose proof (pump_closes peer bs (h_reads h) k) as Hp.
  destruct (pump peer bs (h_reads h) k) as [[t k1] [[]|e]];
    unfold trace_of in *; cbn [fst snd] in Hp.
  - unfold wfile_write, socket.
    destruct (peer k1) as [e|].
    + destruct (client_gone e); unfold emit, answer;
        destruct (h_close h) as [[]|e']; cbn [fst snd];
        rewrite ?closes_app, Hp; reflexivity.
    + unfold answer. destruct (h_close h) as [[]|e']; cbn [fst snd];
        rewrite ?closes_app, Hp; reflexivity.
  - destruct (client_gone e); unfold emit, answer;
      destruct (h_close h) as [[]|e']; cbn [fst snd];
      rewrite ?closes_app, Hp; reflexivity.
Qed.

Lemma relay_returns (peer : client) (name : string) (bs : yaml) (h : handle) (k : nat) :
  (forall j e, peer j = Some e -> client_gone e = true) ->
  forallb is_ok (h_reads h) = true ->
  h_close h = Ok tt ->
  outcome_of (relay peer name bs h k) = Ok tt.
Proof.
  intros Hgone Hreads Hclose.
  unfold relay, try_finally, try_except, bind.
  pose proof (pump_outcome peer bs (h_reads h) k) as Hp.
  destruct (pump peer bs (h_reads h) k) as [[t k1] [[]|e]];
    unfold outcome_of in *; cbn [fst snd] in Hp.
  - unfold wfile_write, socket.
    destruct (peer k1) as [e|] eqn:Hk1.
    + rewrite (Hgone _ _ Hk1). unfold emit, answer. by rewrite Hclose.
    + unfold answer. by rewrite Hclose.
  - destruct (Hp e eq_refl) as [[j Hj]|Hin].
    + rewrite (Hgone _ _ Hj). unfold emit, answer. by rewrite Hclose.
    + rewrite forallb_forall in Hreads. by apply Hreads in Hin.
Qed.

(** ** Up to the open *)

Lemma select_nonempty (streams : list (string * variant)) (v : variant) :
  select streams = Ok v -> streams <> [].
Proof. by intros H ->. Qed.

Lemma serve_stream_opened
  (cfg opts : gmap string yaml) (b : backend) (peer : client) (name : string)
  (desc : yaml) (streams : list (string * variant)) (v : variant) (h : handle)
  (k : nat) :
  name_ok name = true ->
  cfg !! name = Some desc ->
  truthy (route_url desc) = true ->
  b (session_options opts) (route_url desc) = Ok streams ->
  select streams = Ok v ->
  peer k = None ->
  v_open v = Ok h ->
  serve_stream cfg opts b peer name k =
  match relay peer name (buffer_size opts) h (S k) with
  | (t, k', Ok a) => (preamble opts (route_url desc) v ++ t, k', Ok a)
  | (t, k', Exc e) =>
      match outer_handler peer e with
      | Some handler =>
          let '(t2, k2, r) := handler k' in
          ((preamble opts (route_url desc) v ++ t) ++ t2, k2, r)
      | None => (preamble opts (route_url desc) v ++ t, k', Exc e)
      end
  end.
Proof.
  intros Hname Hcfg Hurl Hb Hsel Hk Hopen.
  pose proof (select_nonempty _ _ Hsel) as Hne.
  unfold serve_stream. rewrite Hname, Hcfg. cbn [negb]. rewrite Hurl. cbn [negb].
  unfold stream_url, try_except, bind, emit, answer.
  rewrite Hb. destruct streams as [|kv streams']; [done|].
  rewrite Hsel. cbn [lift ret].
  unfold send_response, send_header, end_headers, socket, emit.
  rewrite Hk, Hopen.
  destruct (relay peer name (buffer_size opts) h (S k)) as [[t k'] [a|e]];
    [reflexivity|].
  destruct (outer_handler peer e) as [handler|]; [|reflexivity].
  destruct (handler k') as [[t2 k2] r]. reflexivity.
Qed.

(** ** The body *)

Lemma body_of_app (t1 t2 : list event) : body_of (t1 ++ t2) = body_of t1 ++ body_of t2.
Proof. unfold body_of. apply flat_map_app. Qed.

Lemma body_of_cycle (bs : yaml) (d : bytes) : body_of (cycle bs d) = frame (trim d).
Proof. unfold body_of, cycle, frame. cbn [flat_map written]. by rewrite !app_nil_r. Qed.

Lemma body_of_cycles (bs : yaml) (ds : list bytes) :
  body_of (flat_map (cycle bs) ds) = concat (map frame (map trim ds)).
Proof.
  induction ds as [|d ds IH]; [done|].
  cbn [flat_map map concat]. by rewrite body_of_app, body_of_cycle, IH.
Qed.


(** [select] on a dict with unique keys. *)
Lemma select_total (streams : list (string * variant)) :
  streams <> [] -> exists v, select streams = Ok v.
Proof.
  destruct streams as [|[key v0] streams]; [done|]. intros _.
  unfold select, first_value. cbn [dict_values map snd].
  destruct (streams_get _ _) as [vb|]; [destruct (v_truthy vb)|]; eauto.
Qed.



(** ** The three ways out of the loop *)

Section Relay.
Variable peer : client.
Variable name : string.
Variable bs : yaml.

Lemma relay_after_loop (reads : list (result bytes)) (cl : result unit) (k : nat) :
  relay peer name bs (MkHandle reads cl) k =
  match pump peer bs reads k with
  | (t, k1, Ok _) =>
      (t ++ [socket_event peer k1 (Write terminal)] ++ goodbye name (peer k1)
         ++ [answer_event Close cl],
       S k1, relay_outcome (peer k1) cl)
  | (t, k1, Exc e) =>
      (t ++ goodbye name (Some e) ++ [answer_event Close cl],
       k1, relay_outcome (Some e) cl)
  end.
Proof.
  unfold relay, try_finally, try_except, bind. cbn [h_reads h_close].
  destruct (pump peer bs reads k) as [[t k1] [[]|e]].
  - unfold wfile_write, socket, socket_event, goodbye, relay_outcome, terminal.
    destruct (peer k1) as [e|].
    + destruct (client_gone e); unfold emit, answer;
        destruct cl as [[]|e']; cbn [app]; by rewrite <- ?app_assoc.
    + unfold answer. destruct cl as [[]|e']; cbn [app]; by rewrite <- ?app_assoc.
  - unfold goodbye, relay_outcome.
    destruct (client_gone e); unfold emit, answer;
      destruct cl as [[]|e']; cbn [app]; by rewrite <- ?app_assoc, ?app_nil_r.
Qed.

(** The upstream read answers [b""] after the reads [ds]. *)
Lemma relay_eof (ds : list bytes) (tail : list (result bytes)) (cl : result unit)
  (k : nat) :
  Forall (fun d => d <> []) ds ->
  at_eof tail = true ->
  (forall j, j < 3 * length ds -> peer (k + j) = None) ->
  relay peer name bs (MkHandle (map Ok ds ++ tail) cl) k =
  (flat_map (cycle bs) ds
     ++ [Returned (Read bs); socket_event peer (k + 3 * length ds) (Write terminal)]
     ++ goodbye name (peer (k + 3 * length ds)) ++ [answer_event Close cl],
   S (k + 3 * length ds), relay_outcome (peer (k + 3 * length ds)) cl).
Proof.
  intros Hne Heof Hok.
  rewrite relay_after_loop, pump_blocks, pump_eof by done.
  by rewrite <- !app_assoc.
Qed.

(** The upstream read raises after the reads [ds]. *)
Lemma relay_read_raises (ds : list bytes) (e : exn) (rest : list (result bytes))
  (cl : result unit) (k : nat) :
  Forall (fun d => d <> []) ds ->
  (forall j, j < 3 * length ds -> peer (k + j) = None) ->
  relay peer name bs (MkHandle (map Ok ds ++ Exc e :: rest) cl) k =
  (flat_map (cycle bs) ds ++ [Raised (Read bs) e]
     ++ goodbye name (Some e) ++ [answer_event Close cl],
   k + 3 * length ds, relay_outcome (Some e) cl).
Proof.
  intros Hne Hok.
  rewrite relay_after_loop, pump_blocks, pump_read_raises by done.
  by rewrite <- !app_assoc.
Qed.

(** A write of the chunk of [d] raises, after the reads [ds] went through. *)
Lemma relay_broken (ds : list bytes) (d : bytes) (tail : list (result bytes))
  (cl : result unit) (k i : nat) (e : exn) :
  Forall (fun d => d <> []) ds ->
  d <> [] -> i < 3 ->
  (forall j, j < 3 * length ds + i -> peer (k + j) = None) ->
  peer (k + (3 * length ds + i)) = Some e ->
  relay peer name bs (MkHandle (map Ok ds ++ Ok d :: tail) cl) k =
  (flat_map (cycle bs) ds ++ broken_cycle bs d i e
     ++ goodbye name (Some e) ++ [answer_event Close cl],
   S (k + 3 * length ds + i), relay_outcome (Some e) cl).
Proof.
  intros Hne Hd Hi Hok Hbad.
  rewrite relay_after_loop, pump_blocks; [|done|intros j Hj; apply Hok; lia].
  rewrite (pump_broken peer bs d tail (k + 3 * length ds) i e); [|done..| |].
  - by rewrite <- !app_assoc.
  - intros j Hj. rewrite <- Nat.add_assoc. apply Hok. lia.
  - by rewrite <- Nat.add_assoc.
Qed.

End Relay.

Lemma outer_handler_run (peer : client) (e : exn) (handler : M unit) (k : nat) :
  outer_handler peer e = Some handler ->
  exists code msg,
    handler k = ([socket_event peer k (SendError code msg)], S k,
                 match peer k with None => Ok tt | Some e' => Exc e' end).
Proof.
  unfold outer_handler, send_error, socket, socket_event.
  destruct (exn_cls e); intros [= <-]; do 2 eexists; by destruct (peer k).
Qed.

Lemma body_of_socket_error (peer : client) (k : nat) (code : Z) (msg : string) :
  body_of [socket_event peer k (SendError code msg)] = [].
Proof. unfold socket_event. by destruct (peer k). Qed.

Lemma body_of_preamble (opts : gmap string yaml) (url : yaml) (v : variant) :
  body_of (preamble opts url v) = [].
Proof. reflexivity. Qed.

Lemma body_of_close (cl : result unit) : body_of [answer_event Close cl] = [].
Proof. by destruct cl. Qed.

Lemma body_of_goodbye (name : string) (left : option exn) :
  body_of (goodbye name left) = [].
Proof. destruct left as [e|]; [|done]. cbn. by destruct (client_gone e). Qed.

(** ** Which calls a run can hold *)

Lemma pump_calls (peer : client) (bs : yaml) (reads : list (result bytes)) (k : nat) :
  Forall (fun ev => loop_call bs (call_of ev)) (trace_of (pump peer bs reads k)).
Proof.
  revert k. induction reads as [|r reads IH]; intros k.
  - by repeat constructor.
  - destruct r as [[|b d]|e]; [by repeat constructor| |by repeat constructor].
    cbn [pump]. unfold bind at 1. cbn [answer].
    destruct (trim (b :: d)) as [|b' d'].
    + unfold bind, ret. specialize (IH k).
      destruct (pump peer bs reads k) as [[t k'] r].
      unfold trace_of in *. cbn [fst snd app] in *. by constructor.
    + unfold bind, wfile_write, wfile_flush, socket, emit.
      destruct (peer k); [by repeat constructor|].
      destruct (peer (S k)); [by repeat constructor|].
      destruct (peer (S (S k))); [by repeat constructor|].
      specialize (IH (S (S (S k)))).
      destruct (pump peer bs reads _) as [[t k'] r].
      unfold trace_of in *. cbn [fst snd app] in *. by repeat constructor.
Qed.

Lemma relay_calls (peer : client) (name : string) (bs : yaml) (h : handle) (k : nat) :
  Forall (fun ev => relay_call bs (call_of ev)) (trace_of (relay peer name bs h k)).
Proof.
  destruct h as [reads cl]. rewrite relay_after_loop.
  pose proof (pump_calls peer bs reads k) as Hp.
  assert (Forall (fun ev => relay_call bs (call_of ev))
            (trace_of (pump peer bs reads k))) as Hp'.
  { eapply Forall_impl; [exact Hp|]. intros ev. cbn beta. destruct (call_of ev); cbn; tauto. }
  assert (forall left, Forall (fun ev => relay_call bs (call_of ev)) (goodbye name left))
    as Hg.
  { intros [e|]; [|by constructor]. cbn. destruct (client_gone e); by repeat constructor. }
  assert (Forall (fun ev => relay_call bs (call_of ev)) [answer_event Close cl]) as Hc.
  { destruct cl; by repeat constructor. }
  destruct (pump peer bs reads k) as [[t k1] [[]|e]];
    unfold trace_of in *; cbn [fst snd] in *.
  - rewrite !Forall_app. split; [done|]. split; [|by split].
    unfold socket_event. destruct (peer k1); by repeat constructor.
  - rewrite !Forall_app. by repeat split.
Qed.

Lemma opens_app (t1 t2 : list event) : opens (t1 ++ t2) = opens t1 ++ opens t2.
Proof. unfold opens. apply flat_map_app. Qed.


Lemma outer_handler_calls (peer : client) (e : exn) (handler : M unit) (k : nat)
  (P : call -> Prop) :
  (forall code msg, P (SendError code msg)) ->
  outer_handler peer e = Some handler ->
  Forall (fun ev => P (call_of ev)) (trace_of (handler k)).
Proof.
  intros HP Hh. destruct (outer_handler_run peer e handler k Hh) as (code & msg & ->).
  unfold trace_of, socket_event. cbn [fst snd].
  destruct (peer k); repeat constructor; apply HP.
Qed.

(** Walks down an explicit trace, leaving a known tail to [H]. *)
Ltac walk_trace H :=
  unfold trace_of in *; cbn [fst snd app] in *;
  repeat first [exact H | apply Forall_nil | constructor; [done|]].

(** Every read of a request asks for the global [buffer_size]. *)
Lemma serve_stream_reads
  (cfg opts : gmap string yaml) (b : backend) (peer : client) (name : string) (k : nat) :
  Forall (fun ev => reads_by (buffer_size opts) (call_of ev))
    (trace_of (serve_stream cfg opts b peer name k)).
Proof.
  assert (forall e k' (pre : list event),
            Forall (fun ev => reads_by (buffer_size opts) (call_of ev)) pre ->
            Forall (fun ev => reads_by (buffer_size opts) (call_of ev))
              (trace_of
                 match outer_handler peer e with
                 | Some handler => let '(t2, k2, r) := handler k' in (pre ++ t2, k2, r)
                 | None => (pre, k', Exc e)
                 end)) as Hout.
  { intros e k' pre Hpre. destruct (outer_handler peer e) as [handler|] eqn:Hh; [|done].
    pose proof (outer_handler_calls peer e handler k' (reads_by (buffer_size opts))
                  ltac:(done) Hh) as H.
    destruct (handler k') as [[t2 k2] r]. unfold trace_of in *. cbn [fst snd] in *.
    rewrite Forall_app. by split. }
  assert (Forall (fun ev => reads_by (buffer_size opts) (call_of ev)) []) as Hnil
    by constructor.
  unfold serve_stream.
  destruct (name_ok name); cbn [negb];
    [|unfold send_error, socket; destruct (peer k); walk_trace Hnil].
  destruct (cfg !! name) as [desc|];
    [|unfold send_error, socket; destruct (peer k); walk_trace Hnil].
  destruct (truthy (route_url desc)); cbn [negb];
    [|unfold send_error, socket; destruct (peer k); walk_trace Hnil].
  unfold stream_url, bind at 1 2 3 4, emit.
  unfold try_except, bind at 1, answer.
  destruct (b (session_options opts) (route_url desc)) as [streams|e].
  - destruct streams as [|kv streams'].
    + unfold send_error, socket.
      destruct (peer k) as [e|]; [|walk_trace Hnil].
      specialize (Hout e (S k) [Raised (SendError 404 "No streams available") e]
                    ltac:(by repeat constructor)).
      destruct (outer_handler peer e) as [handler|]; [|walk_trace Hnil].
      destruct (handler (S k)) as [[t2 k2] r]. walk_trace Hout.
    + unfold bind at 1. destruct (select (kv :: streams')) as [v|e]; cbn [lift ret raise].
      * unfold bind, send_response, send_header, end_headers, socket, emit, answer.
        destruct (peer k) as [e|].
        -- specialize (Hout e (S k) [Raised EndHeaders e] ltac:(by repeat constructor)).
           destruct (outer_handler peer e) as [handler|]; [|walk_trace Hnil].
           destruct (handler (S k)) as [[t2 k2] r]. walk_trace Hout.
        -- destruct (v_open v) as [h|e].
           ++ pose proof (relay_calls peer name (buffer_size opts) h (S k)) as Hr.
              assert (Forall (fun ev => reads_by (buffer_size opts) (call_of ev))
                        (trace_of (relay peer name (buffer_size opts) h (S k)))) as Hr'.
              { eapply Forall_impl; [exact Hr|].
                intros ev. cbn beta. destruct (call_of ev); cbn; tauto. }
              destruct (relay peer name (buffer_size opts) h (S k)) as [[t k'] [[]|e]];
                unfold trace_of in Hr'; cbn [fst snd] in Hr'; [walk_trace Hr'|].
              specialize (Hout e k' t Hr').
              destruct (outer_handler peer e) as [handler|]; [|walk_trace Hout].
              destruct (handler k') as [[t2 k2] r]. walk_trace Hout.
           ++ specialize (Hout e (S k) [Raised (Open v) e] ltac:(by repeat constructor)).
              destruct (outer_handler peer e) as [handler|]; [|walk_trace Hnil].
              destruct (handler (S k)) as [[t2 k2] r]. walk_trace Hout.
      * specialize (Hout e k [] ltac:(constructor)).
        destruct (outer_handler peer e) as [handler|]; [|walk_trace Hnil].
        destruct (handler k) as [[t2 k2] r]. walk_trace Hout.
  - specialize (Hout e k [Raised (Streams (route_url desc)) e] ltac:(by repeat constructor)).
    destruct (outer_handler peer e) as [handler|]; [|walk_trace Hnil].
    destruct (handler k) as [[t2 k2] r]. walk_trace Hout.
Qed.

(** ** Properties of the handler *)

(** C1, as the code has it: when the upstream ends, the chunks written before
    the terminal marker are one per non-empty read, in order; each is
    non-empty, and its length is a multiple of 188 unless the read itself was
    shorter than 188 bytes, in which case the read is written whole, wherever
    in the stream it comes. *)
Theorem C1_chunk_lengths
  (peer : client) (name : string) (bs : yaml) (ds : list bytes)
  (tail : list (result bytes)) (cl : result unit) (k : nat) :
  Forall (fun d => d <> []) ds ->
  at_eof tail = true ->
  (forall j, j < 3 * length ds + 1 -> peer (k + j) = None) ->
  trace_of (relay peer name bs (MkHandle (map Ok ds ++ tail) cl) k) =
    flat_map (cycle bs) ds
    ++ [Returned (Read bs); Returned (Write terminal); answer_event Close cl]
  /\ Forall (fun d => 0 < length (trim d) /\
                      (length (trim d) mod 188 = 0 \/
                       (length d < 188 /\ trim d = d))) ds.
Proof.
  intros Hne Heof Hok. split.
  - rewrite relay_eof; [|done..|intros j Hj; apply Hok; lia].
    unfold trace_of, socket_event. cbn [fst snd].
    by rewrite (Hok (3 * length ds)) by lia.
  - eapply Forall_impl; [exact Hne|]. intros d Hd. by apply trim_length.
Qed.

Lemma C1_witness :
  trace_of (relay patient "foo" (YInt 8388608)
              (MkHandle (map Ok [zeros 100; zeros 188] ++ [Ok []]) (Ok tt)) 0) =
    flat_map (cycle (YInt 8388608)) [zeros 100; zeros 188]
    ++ [Returned (Read (YInt 8388608)); Returned (Write terminal);
        answer_event Close (Ok tt)]
  /\ Forall (fun d => 0 < length (trim d) /\
                      (length (trim d) mod 188 = 0 \/
                       (length d < 188 /\ trim d = d))) [zeros 100; zeros 188].
Proof.
  apply (C1_chunk_lengths patient "foo" (YInt 8388608) [zeros 100; zeros 188]
           [Ok []] (Ok tt) 0).
  - repeat constructor; discriminate.
  - reflexivity.
  - reflexivity.
Defined.

(** C1 as stated fails: a 100-byte read followed by a 188-byte read and the
    end of the stream.  The 100-byte chunk is written while further reads
    still return data, and 100 is not a multiple of 188. *)
Lemma C1_counterexample :
  trace_of (relay patient "foo" (YInt 8388608)
              (MkHandle [Ok (zeros 100); Ok (zeros 188); Ok []] (Ok tt)) 0) =
    [Returned (Read (YInt 8388608));
     Returned (Write (encode ("64" +:+ CRLF)));
     Returned (Write (zeros 100));
     Returned (Write (encode CRLF));
     Returned Flush;
     Returned (Read (YInt 8388608));
     Returned (Write (encode ("bc" +:+ CRLF)));
     Returned (Write (zeros 188));
     Returned (Write (encode CRLF));
     Returned Flush;
     Returned (Read (YInt 8388608));
     Returned (Write (encode ("0" +:+ CRLF +:+ CRLF)));
     Returned Close]
  /\ length (zeros 100) mod 188 <> 0.
Proof. split; [vm_compute; reflexivity | vm_compute; discriminate]. Qed.

(** C2: a read of length L, with L not a multiple of 188 and L > 188, is
    written as the chunk made of its first L - L mod 188 bytes: when the
    three writes go through, the turn is the read, the size line of
    L - L mod 188, these bytes, CRLF and the flush, and the loop goes on with
    the reads that are left, on which the dropped tail has no bearing; when
    one of the writes raises, the turn stops there and the loop with it.
    Either way the last L mod 188 bytes are in no write. *)
Theorem C2_unaligned_tail_dropped
  (peer : client) (bs : yaml) (data : bytes) (rest : list (result bytes)) (k : nat) :
  length data mod 188 <> 0 ->
  188 < length data ->
  (peer k = None -> peer (S k) = None -> peer (S (S k)) = None ->
   pump peer bs (Ok data :: rest) k =
   let '(t, k', r) := pump peer bs rest (S (S (S k))) in
   ([Returned (Read bs);
     Returned (Write (encode (hex (length data - length data mod 188) +:+ CRLF)));
     Returned (Write (take (length data - length data mod 188) data));
     Returned (Write (encode CRLF));
     Returned Flush] ++ t, k', r))
  /\ (forall i e,
        i < 3 ->
        (forall j, j < i -> peer (k + j) = None) ->
        peer (k + i) = Some e ->
        pump peer bs (Ok data :: rest) k =
        (Returned (Read bs)
           :: map (fun w => Returned (Write w))
                (take i (frame_writes (take (length data - length data mod 188) data)))
           ++ match frame_writes (take (length data - length data mod 188) data) !! i with
              | Some w => [Raised (Write w) e]
              | None => []
              end,
         S (k + i), Exc e)).
Proof.
  intros Hr Hlt.
  assert (data <> []) as Hne by (intros ->; cbn in Hlt; lia).
  assert (trim data = take (length data - length data mod 188) data) as Ht.
  { destruct (trim_cases data) as [(_ & _ & Ht) | ([H | H] & _)]; [done|done|lia]. }
  split.
  - intros H0 H1 H2. rewrite pump_cycle by done.
    unfold cycle, size_line. rewrite Ht, length_take, Nat.min_l by lia.
    reflexivity.
  - intros i e Hi Hok Hbad.
    rewrite (pump_broken peer bs data rest k i e) by done.
    unfold broken_cycle. by rewrite Ht.
Qed.

Lemma C2_witness :
  pump patient (YInt 8388608) [Ok (zeros 200)] 0 =
  let '(t, k', r) := pump patient (YInt 8388608) [] 3 in
  ([Returned (Read (YInt 8388608));
    Returned (Write (encode (hex (length (zeros 200) - length (zeros 200) mod 188) +:+ CRLF)));
    Returned (Write (take (length (zeros 200) - length (zeros 200) mod 188) (zeros 200)));
    Returned (Write (encode CRLF));
    Returned Flush] ++ t, k', r).
Proof.
  refine (proj1 (C2_unaligned_tail_dropped patient (YInt 8388608) (zeros 200) [] 0 _ _)
            _ _ _);
    [vm_compute; discriminate | vm_compute; lia | reflexivity..].
Defined.

(** C3: when the first read returns 200 bytes and the second none, the body
    sent is the four bytes b c CR LF, the first 188 bytes of the read, CR LF,
    and the five bytes 0 CR LF CR LF. *)
Theorem C3_two_hundred_byte_read
  (cfg opts : gmap string yaml) (b : backend) (peer : client) (name : string)
  (desc : yaml) (streams : list (string * variant)) (v : variant)
  (data : bytes) (rest : list (result bytes)) (cl : result unit) (k : nat) :
  name_ok name = true ->
  cfg !! name = Some desc ->
  truthy (route_url desc) = true ->
  b (session_options opts) (route_url desc) = Ok streams ->
  select streams = Ok v ->
  v_open v = Ok (MkHandle (Ok data :: Ok [] :: rest) cl) ->
  length data = 200 ->
  (forall j, peer j = None) ->
  body_of (trace_of (serve_stream cfg opts b peer name k)) =
  ["b"; "c"; "013"; "010"]%byte ++ take 188 data
  ++ ["013"; "010"; "0"; "013"; "010"; "013"; "010"]%byte.
Proof.
  intros Hname Hcfg Hurl Hb Hsel Hopen Hlen Hpeer.
  rewrite (serve_stream_opened _ _ _ _ _ _ _ _ _ _ Hname Hcfg Hurl Hb Hsel (Hpeer k) Hopen).
  assert (data <> []) as Hne by (intros ->; done).
  assert (trim data = take 188 data) as Ht.
  { destruct (trim_cases data) as [(_ & _ & ->) | ([H | H] & _)].
    - by rewrite Hlen.
    - by rewrite Hlen in H.
    - rewrite Hlen in H. lia. }
  assert (body_of (flat_map (cycle (buffer_size opts)) [data]
                   ++ [Returned (Read (buffer_size opts));
                       socket_event peer (S k + 3 * length [data]) (Write terminal)]
                   ++ goodbye name (peer (S k + 3 * length [data]))
                   ++ [answer_event Close cl])
          = ["b"; "c"; "013"; "010"]%byte ++ take 188 data
            ++ ["013"; "010"; "0"; "013"; "010"; "013"; "010"]%byte) as Hbody.
  { rewrite !body_of_app, body_of_cycles, body_of_goodbye, body_of_close.
    unfold socket_event. rewrite Hpeer.
    cbn [map concat]. unfold frame, size_line.
    rewrite Ht, length_take, Hlen, !app_nil_r.
    change (188 `min` 200) with 188. rewrite <- !app_assoc. reflexivity. }
  change (Ok data :: Ok [] :: rest) with (map Ok [data] ++ Ok [] :: rest).
  rewrite (relay_eof peer name (buffer_size opts) [data] (Ok [] :: rest) cl (S k));
    [|by constructor|done|done].
  destruct (relay_outcome _ cl) as [[]|e].
  - unfold trace_of. cbn [fst snd]. by rewrite body_of_app, body_of_preamble, Hbody.
  - destruct (outer_handler peer e) as [handler|] eqn:Hh.
    + destruct (outer_handler_run peer e handler (S (S k + 3 * length [data])) Hh)
        as (code & msg & ->).
      unfold trace_of. cbn [fst snd].
      rewrite body_of_app, (body_of_app (preamble _ _ _)).
      by rewrite body_of_preamble, body_of_socket_error, Hbody, app_nil_r.
    + unfold trace_of. cbn [fst snd]. by rewrite body_of_app, body_of_preamble, Hbody.
Qed.

Lemma C3_witness :
  body_of (trace_of (serve_stream foo_config ∅
                       (one_stream (Ok (MkHandle [Ok (zeros 200); Ok []] (Ok tt))))
                       patient "foo" 0)) =
  ["b"; "c"; "013"; "010"]%byte ++ take 188 (zeros 200)
  ++ ["013"; "010"; "0"; "013"; "010"; "013"; "010"]%byte.
Proof.
  apply (C3_two_hundred_byte_read foo_config ∅
           (one_stream (Ok (MkHandle [Ok (zeros 200); Ok []] (Ok tt))))
           patient "foo" (YStr "http://x/y.m3u8")
           [("best", MkVariant true (Ok (MkHandle [Ok (zeros 200); Ok []] (Ok tt))))]
           (MkVariant true (Ok (MkHandle [Ok (zeros 200); Ok []] (Ok tt))))
           (zeros 200) [] (Ok tt) 0); reflexivity.
Defined.

(** C4, as the code has it: once [stream.open()] has returned, [close()] is
    called exactly once whatever the client, the reads and [close] itself
    do.  When [close()] returns, a client write that raises
    [BrokenPipeError], [ConnectionResetError] or [ConnectionAbortedError]
    leaves no exception to the caller of the handler, be it one of the three
    writes of a chunk or the write of the terminal marker. *)
Theorem C4_closed_exactly_once
  (cfg opts : gmap string yaml) (b : backend) (peer : client) (name : string)
  (desc : yaml) (streams : list (string * variant)) (v : variant) (h : handle)
  (k : nat) :
  name_ok name = true ->
  cfg !! name = Some desc ->
  truthy (route_url desc) = true ->
  b (session_options opts) (route_url desc) = Ok streams ->
  select streams = Ok v ->
  peer k = None ->
  v_open v = Ok h ->
  closes (trace_of (serve_stream cfg opts b peer name k)) = 1
  /\ (h_close h = Ok tt ->
      forall (ds : list bytes) (e : exn),
        Forall (fun d => d <> []) ds ->
        exn_cls e = BrokenPipeError \/ exn_cls e = ConnectionResetError
        \/ exn_cls e = ConnectionAbortedError ->
        (forall d tail i,
           h_reads h = map Ok ds ++ Ok d :: tail ->
           d <> [] -> i < 3 ->
           (forall j, j < 3 * length ds + i -> peer (S k + j) = None) ->
           peer (S k + (3 * length ds + i)) = Some e ->
           outcome_of (serve_stream cfg opts b peer name k) = Ok tt)
        /\ (forall tail,
              h_reads h = map Ok ds ++ tail ->
              at_eof tail = true ->
              (forall j, j < 3 * length ds -> peer (S k + j) = None) ->
              peer (S k + 3 * length ds) = Some e ->
              outcome_of (serve_stream cfg opts b peer name k) = Ok tt)).
Proof.
  intros Hname Hcfg Hurl Hb Hsel Hk Hopen.
  rewrite (serve_stream_opened _ _ _ _ _ _ _ _ _ _ Hname Hcfg Hurl Hb Hsel Hk Hopen).
  split.
  - pose proof (relay_closes peer name (buffer_size opts) h (S k)) as Hc.
    destruct (relay peer name (buffer_size opts) h (S k)) as [[t k'] [[]|e]];
      unfold trace_of in *; cbn [fst snd] in *.
    + by rewrite closes_app, Hc.
    + destruct (outer_handler peer e) as [handler|] eqn:Hh.
      * destruct (outer_handler_run peer e handler k' Hh) as (code & msg & ->).
        cbn [fst snd]. rewrite !closes_app, Hc.
        unfold socket_event. by destruct (peer k').
      * cbn [fst snd]. by rewrite closes_app, Hc.
  - intros Hclose ds e Hne Hcls.
    assert (client_gone e = true) as Hgone.
    { unfold client_gone. by destruct Hcls as [-> | [-> | ->]]. }
    destruct h as [reads cl]. cbn [h_reads h_close] in *. subst cl.
    split.
    + intros d tail i -> Hd Hi Hok Hbad.
      rewrite (relay_broken peer name (buffer_size opts) ds d tail (Ok tt) (S k) i e)
        by done.
      unfold relay_outcome. by rewrite Hgone.
    + intros tail -> Heof Hok Hbad.
      rewrite (relay_eof peer name (buffer_size opts) ds tail (Ok tt) (S k)) by done.
      unfold relay_outcome. by rewrite Hbad, Hgone.
Qed.

Lemma C4_witness :
  closes (trace_of (serve_stream foo_config ∅
                      (one_stream (Ok (MkHandle [Ok (zeros 200); Ok []] (Ok tt))))
                      (hangup_at 2) "foo" 0)) = 1
  /\ outcome_of (serve_stream foo_config ∅
                   (one_stream (Ok (MkHandle [Ok (zeros 200); Ok []] (Ok tt))))
                   (hangup_at 2) "foo" 0) = Ok tt.
Proof.
  pose proof (C4_closed_exactly_once foo_config ∅
                (one_stream (Ok (MkHandle [Ok (zeros 200); Ok []] (Ok tt))))
                (hangup_at 2) "foo" (YStr "http://x/y.m3u8")
                [("best", MkVariant true (Ok (MkHandle [Ok (zeros 200); Ok []] (Ok tt))))]
                (MkVariant true (Ok (MkHandle [Ok (zeros 200); Ok []] (Ok tt))))
                (MkHandle [Ok (zeros 200); Ok []] (Ok tt)) 0
                eq_refl eq_refl eq_refl eq_refl eq_refl eq_refl eq_refl) as [Hc Hr].
  split; [exact Hc|].
  refine (proj1 (Hr eq_refl [] broken_pipe _ _) (zeros 200) [Ok []] 1 _ _ _ _ _).
  - constructor.
  - left. reflexivity.
  - reflexivity.
  - discriminate.
  - lia.
  - intros j Hj. destruct j as [|j]; [reflexivity | cbn in Hj; lia].
  - reflexivity.
Defined.

(** C4 as stated fails when [close()] raises: the client is gone from the
    first chunk on, the write of the size line raises [BrokenPipeError],
    which the inner clause catches; [close()] then raises [StreamError], the
    outer clause answers it with [send_error] on the dead connection, and the
    [BrokenPipeError] of that call leaves the handler. *)
Lemma C4_counterexample :
  serve_stream foo_config ∅
    (one_stream (Ok (MkHandle [Ok (zeros 200); Ok []]
                       (Exc (MkExn StreamError "close failed")))))
    (gone_from 1) "foo" 0 =
  (setup ∅ (YStr "http://x/y.m3u8")
     ++ [Returned (Open (MkVariant true
                           (Ok (MkHandle [Ok (zeros 200); Ok []]
                                  (Exc (MkExn StreamError "close failed"))))));
         Returned (Read (YInt 8388608));
         Raised (Write ["b"; "c"; "013"; "010"]%byte) broken_pipe;
         Returned (Print "Client disconnected from stream 'foo'");
         Raised Close (MkExn StreamError "close failed");
         Raised (SendError 500 "Stream error: close failed") broken_pipe],
   3, Exc broken_pipe).
Proof. vm_compute. reflexivity. Qed.

(** C5, on the code: the 200 status line and the three headers are written
    before [stream.open()] is called.  When [open] raises [StreamError], the
    client has already been sent the 200 response head and is then sent a
    500 error page. *)
Theorem C5_headers_precede_open :
  calls (trace_of (serve_stream foo_config ∅
                     (one_stream (Exc (MkExn StreamError "Could not open stream")))
                     patient "foo" 0)) =
  [SetOption "http-headers" (YDict {["User-Agent" := YStr "StreamPipe/1.0"]});
   SetOption "http-timeout" (YFloat 20);
   SetOption "stream-segment-threads" (YInt 4);
   SetOption "ringbuffer-size" (YInt 33554432);
   Streams (YStr "http://x/y.m3u8");
   SendResponse 200;
   SendHeader "Content-Type" "video/MP2T";
   SendHeader "Transfer-Encoding" "chunked";
   SendHeader "Cache-Control" "no-cache";
   EndHeaders;
   Open (MkVariant true (Exc (MkExn StreamError "Could not open stream")));
   SendError 500 "Stream error: Could not open stream"].
Proof. vm_compute. reflexivity. Qed.

(** C6, as the code has it: what a route's mapping carries besides [url] has
    no effect on the request; the session options are the global ones with
    their defaults, and so is the size every read asks for. *)
Theorem C6_route_overrides_ignored
  (cfg opts : gmap string yaml) (b : backend) (peer : client) (name : string)
  (d1 d2 : gmap string yaml) (k : nat) :
  d1 !! "url" = d2 !! "url" ->
  serve_stream (<[name := YDict d1]> cfg) opts b peer name k =
  serve_stream (<[name := YDict d2]> cfg) opts b peer name k
  /\ (name_ok name = true ->
      truthy (dict_get d1 "url" YNull) = true ->
      take 4 (trace_of (serve_stream (<[name := YDict d1]> cfg) opts b peer name k)) =
      [Returned (SetOption "http-headers"
                   (YDict {["User-Agent" := dict_get opts "user_agent" (YStr "StreamPipe/1.0")]}));
       Returned (SetOption "http-timeout" (dict_get opts "timeout" (YFloat 20)));
       Returned (SetOption "stream-segment-threads" (dict_get opts "threads" (YInt 4)));
       Returned (SetOption "ringbuffer-size" (YInt 33554432))])
  /\ Forall (fun ev => reads_by (dict_get opts "buffer_size" (YInt 8388608)) (call_of ev))
       (trace_of (serve_stream (<[name := YDict d1]> cfg) opts b peer name k)).
Proof.
  intros Hurl. split; [|split; [|apply serve_stream_reads]].
  - unfold serve_stream. rewrite !lookup_insert_eq.
    unfold route_url, dict_get. by rewrite Hurl.
  - intros Hname Htruthy.
    unfold serve_stream. rewrite Hname, lookup_insert_eq. cbn [negb route_url].
    rewrite Htruthy. cbn [negb].
    unfold stream_url, bind, emit.
    destruct (try_except _ _ k) as [[t k'] r]. reflexivity.
Qed.

Lemma C6_witness :
  serve_stream (<["foo" := override_route]> ∅) ∅
    (one_stream (Ok (MkHandle [] (Ok tt)))) patient "foo" 0 =
  serve_stream (<["foo" := YDict {["url" := YStr "http://x/y.m3u8"]}]> ∅) ∅
    (one_stream (Ok (MkHandle [] (Ok tt)))) patient "foo" 0.
Proof.
  refine (proj1 (C6_route_overrides_ignored ∅ ∅ (one_stream (Ok (MkHandle [] (Ok tt))))
                   patient "foo" _ {["url" := YStr "http://x/y.m3u8"]} 0 _)).
  reflexivity.
Defined.

(** C6 as stated fails: the route sets [user_agent] and [buffer_size], the
    global options set nothing; the session is given the default user agent
    and the reads ask for the default size. *)
Lemma C6_counterexample :
  calls (trace_of (serve_stream override_config ∅
                     (one_stream (Ok (MkHandle [] (Ok tt)))) patient "foo" 0)) =
  [SetOption "http-headers" (YDict {["User-Agent" := YStr "StreamPipe/1.0"]});
   SetOption "http-timeout" (YFloat 20);
   SetOption "stream-segment-threads" (YInt 4);
   SetOption "ringbuffer-size" (YInt 33554432);
   Streams (YStr "http://x/y.m3u8");
   SendResponse 200;
   SendHeader "Content-Type" "video/MP2T";
   SendHeader "Transfer-Encoding" "chunked";
   SendHeader "Cache-Control" "no-cache";
   EndHeaders;
   Open (MkVariant true (Ok (MkHandle [] (Ok tt))));
   Read (YInt 8388608);
   Write terminal;
   Close]
  /\ merged_option override_route ∅ "user_agent" (YStr "StreamPipe/1.0") = YStr "Mozilla/5.0"
  /\ merged_option override_route ∅ "buffer_size" (YInt 8388608) = YInt 188.
Proof. repeat split; vm_compute; reflexivity. Qed.

(** On Latin-1 the check of line 50 accepts what the spec names and the
    characters of [latin1_name_char]. *)
Lemma name_char_table (c : ascii) :
  name_char c = ascii_name_char c || latin1_name_char c.
Proof. destruct c as [[] [] [] [] [] [] [] []]; reflexivity. Qed.

(** C7, as the code has it: a name with a character that is neither
    [islower], nor [isdigit], nor the hyphen is answered 404 by the single
    call [send_error(404, "Not Found")], whatever the routing table holds. *)
Theorem C7_bad_name_rejected
  (cfg cfg' opts : gmap string yaml) (b : backend) (peer : client) (name : string)
  (c : ascii) (k : nat) :
  In c (list_ascii_of_string name) ->
  name_char c = false ->
  serve_stream cfg opts b peer name k =
    ([socket_event peer k (SendError 404 "Not Found")], S k,
     match peer k with None => Ok tt | Some e => Exc e end)
  /\ serve_stream cfg opts b peer name k = serve_stream cfg' opts b peer name k.
Proof.
  intros Hin Hc.
  assert (name_ok name = false) as Hname.
  { unfold name_ok. apply not_true_is_false. intros Hall.
    rewrite forallb_forall in Hall. specialize (Hall c Hin). congruence. }
  unfold serve_stream. rewrite Hname. cbn [negb].
  split; [|done].
  unfold send_error, socket, socket_event. by destruct (peer k).
Qed.

Lemma C7_witness :
  serve_stream {["Foo" := YStr "http://x/y.m3u8"]} ∅
    (one_stream (Ok (MkHandle [] (Ok tt)))) patient "Foo" 0 =
    ([socket_event patient 0 (SendError 404 "Not Found")], 1,
     match patient 0 with None => Ok tt | Some e => Exc e end)
  /\ serve_stream {["Foo" := YStr "http://x/y.m3u8"]} ∅
       (one_stream (Ok (MkHandle [] (Ok tt)))) patient "Foo" 0 =
     serve_stream ∅ ∅ (one_stream (Ok (MkHandle [] (Ok tt)))) patient "Foo" 0.
Proof.
  apply (C7_bad_name_rejected {["Foo" := YStr "http://x/y.m3u8"]} ∅ ∅
           (one_stream (Ok (MkHandle [] (Ok tt)))) patient "Foo" "F" 0).
  - left. reflexivity.
  - reflexivity.
Defined.

(** C7 as stated fails: the character of code point 233 is neither a
    lowercase ASCII letter, nor an ASCII digit, nor a hyphen, yet a request
    for the name made of it is looked up, resolved by the backend and
    answered 200. *)
Lemma C7_counterexample :
  ascii_name_char "233" = false
  /\ In "233"%char (list_ascii_of_string e_acute)
  /\ calls (trace_of (serve_stream e_acute_config ∅
                        (one_stream (Ok (MkHandle [] (Ok tt)))) patient e_acute 0)) =
     [SetOption "http-headers" (YDict {["User-Agent" := YStr "StreamPipe/1.0"]});
      SetOption "http-timeout" (YFloat 20);
      SetOption "stream-segment-threads" (YInt 4);
      SetOption "ringbuffer-size" (YInt 33554432);
      Streams (YStr "http://x/y.m3u8");
      SendResponse 200;
      SendHeader "Content-Type" "video/MP2T";
      SendHeader "Transfer-Encoding" "chunked";
      SendHeader "Cache-Control" "no-cache";
      EndHeaders;
      Open (MkVariant true (Ok (MkHandle [] (Ok tt))));
      Read (YInt 8388608);
      Write terminal;
      Close].
Proof. split; [reflexivity|]. split; [by left|]. vm_compute. reflexivity. Qed.

(** C8: a request for a configured route whose URL is missing or empty is
    answered by the single call
    [send_error(500, "No URL configured for stream '<name>'")]. *)
Theorem C8_missing_url
  (cfg opts : gmap string yaml) (b : backend) (peer : client) (name : string)
  (desc : yaml) (k : nat) :
  name_ok name = true ->
  cfg !! name = Some desc ->
  truthy (route_url desc) = false ->
  calls (trace_of (serve_stream cfg opts b peer name k)) =
  [SendError 500 ("No URL configured for stream '" +:+ name +:+ "'")].
Proof.
  intros Hname Hcfg Hurl.
  unfold serve_stream. rewrite Hname, Hcfg. cbn [negb]. rewrite Hurl. cbn [negb].
  unfold send_error, socket. by destruct (peer k).
Qed.

(** The three shapes of a route without URL that the spec names. *)
Lemma route_url_missing (d : gmap string yaml) :
  d !! "url" = None -> truthy (route_url (YDict d)) = false.
Proof. intros H. unfold route_url, dict_get. by rewrite H. Qed.

Lemma route_url_empty (d : gmap string yaml) :
  d !! "url" = Some (YStr "") -> truthy (route_url (YDict d)) = false.
Proof. intros H. unfold route_url, dict_get. by rewrite H. Qed.

Lemma route_url_empty_string : truthy (route_url (YStr "")) = false.
Proof. reflexivity. Qed.

Lemma C8_witness :
  calls (trace_of (serve_stream {["foo" := YDict {["threads" := YInt 2]}]} ∅
                     (one_stream (Ok (MkHandle [] (Ok tt)))) patient "foo" 0)) =
  [SendError 500 ("No URL configured for stream '" +:+ "foo" +:+ "'")].
Proof.
  apply (C8_missing_url {["foo" := YDict {["threads" := YInt 2]}]} ∅
           (one_stream (Ok (MkHandle [] (Ok tt)))) patient "foo"
           (YDict {["threads" := YInt 2]}) 0); reflexivity.
Defined.








(** ** Further properties of the relay *)

(** X1: the chunk framed for a read is a prefix of the read, and what is cut
    off is shorter than one packet; nothing is cut off exactly when the
    length of the read is a multiple of 188 or below 188. *)
Theorem X1_trim_loss (data : bytes) :
  exists dropped,
    data = trim data ++ dropped
    /\ length dropped < 188
    /\ (dropped = [] <-> length data mod 188 = 0 \/ length data < 188).
Proof.
  destruct (trim_cases data) as [(Hr & Hlt & Ht) | (Hc & Ht)]; rewrite Ht.
  - exists (drop (length data - length data mod 188) data).
    pose proof (Nat.mod_upper_bound (length data) 188 ltac:(lia)) as Hub.
    split; [by rewrite take_drop|]. split.
    + rewrite length_drop. lia.
    + split; [|lia]. intros Hnil.
      assert (length (drop (length data - length data mod 188) data) = 0) as Hlen
        by (by rewrite Hnil).
      rewrite length_drop in Hlen. lia.
  - exists []. split; [by rewrite app_nil_r|]. split; [cbn; lia|].
    split; [|done]. intros _.
    destruct Hc as [H0|Hle]; [by left|].
    destruct (decide (length data = 188)) as [Heq|Hne]; [left; by rewrite Heq | right; lia].
Qed.

Lemma pump_cons_ext
  (peer : client) (bs : yaml) (r : result bytes) (reads1 reads2 : list (result bytes))
  (k : nat) :
  (forall k', pump peer bs reads1 k' = pump peer bs reads2 k') ->
  pump peer bs (r :: reads1) k = pump peer bs (r :: reads2) k.
Proof.
  intros Hext. destruct r as [[|b0 d]|e]; [done| |done].
  cbn [pump].
  unfold bind, answer, wfile_write, wfile_flush, socket, emit, ret.
  cbv beta iota zeta.
  destruct (trim (b0 :: d)) as [|b' d'].
  - by rewrite Hext.
  - destruct (peer k); [done|].
    destruct (peer (S k)); [done|].
    destruct (peer (S (S k))); [done|].
    by rewrite Hext.
Qed.

Lemma pump_app_ext
  (peer : client) (bs : yaml) (pre reads1 reads2 : list (result bytes)) (k : nat) :
  (forall k', pump peer bs reads1 k' = pump peer bs reads2 k') ->
  pump peer bs (pre ++ reads1) k = pump peer bs (pre ++ reads2) k.
Proof.
  intros Hext. revert k. induction pre as [|r pre IH]; intros k; [apply Hext|].
  cbn [app]. by apply pump_cons_ext.
Qed.

(** X2: the loop makes no read after one that returned no bytes or raised,
    whatever the client does. *)
Theorem X2_no_read_past_the_end
  (peer : client) (bs : yaml) (pre rest : list (result bytes)) (k : nat) :
  pump peer bs (pre ++ Ok [] :: rest) k = pump peer bs (pre ++ [Ok []]) k
  /\ (forall e, pump peer bs (pre ++ Exc e :: rest) k = pump peer bs (pre ++ [Exc e]) k).
Proof.
  split; [|intros e]; by apply pump_app_ext.
Qed.

(** X3: nothing is lost of an upstream whose reads all have a length that is
    a multiple of 188 or below 188: when the stream ends and the client
    takes every write, the body is the reads themselves, framed one chunk
    each in the order read, and the terminal marker. *)
Theorem X3_aligned_reads_relayed_whole
  (peer : client) (name : string) (bs : yaml) (ds : list bytes)
  (tail : list (result bytes)) (cl : result unit) (k : nat) :
  Forall (fun d => d <> [] /\ (length d mod 188 = 0 \/ length d < 188)) ds ->
  at_eof tail = true ->
  (forall j, j < 3 * length ds + 1 -> peer (k + j) = None) ->
  body_of (trace_of (relay peer name bs (MkHandle (map Ok ds ++ tail) cl) k)) =
  concat (map frame ds) ++ terminal.
Proof.
  intros Hds Heof Hok.
  assert (Forall (fun d => d <> []) ds) as Hne.
  { eapply Forall_impl; [exact Hds|]. by intros d [? _]. }
  assert (map trim ds = ds) as Htrim.
  { clear Hok Hne. induction Hds as [|d ds [_ Hd] _ IH]; [done|].
    cbn [map]. rewrite IH. f_equal.
    destruct (trim_cases d) as [(Hr & Hlt & _) | (_ & Ht)]; [lia | done]. }
  rewrite relay_eof; [|done..|intros j Hj; apply Hok; lia].
  unfold trace_of, socket_event. cbn [fst snd]. rewrite (Hok (3 * length ds)) by lia.
  rewrite !body_of_app, body_of_cycles, Htrim, body_of_close.
  cbn [goodbye body_of flat_map written]. by rewrite !app_nil_r.
Qed.

Lemma X3_witness :
  body_of (trace_of (relay patient "foo" (YInt 8388608)
                       (MkHandle (map Ok [zeros 376; zeros 100] ++ [Ok []]) (Ok tt)) 0)) =
  concat (map frame [zeros 376; zeros 100]) ++ terminal.
Proof.
  apply (X3_aligned_reads_relayed_whole patient "foo" (YInt 8388608)
           [zeros 376; zeros 100] [Ok []] (Ok tt) 0).
  - constructor; [split; [discriminate | left; reflexivity]|].
    constructor; [split; [discriminate | right; vm_compute; lia]|].
    constructor.
  - reflexivity.
  - reflexivity.
Defined.


(** ** Every way through the handler *)

Lemma outer_handler_page (peer : client) (e : exn) :
  outer_handler peer e = (fun c => socket peer c) <$> error_page e.
Proof. unfold outer_handler, error_page, send_error. by destruct (exn_cls e). Qed.

Lemma try_except_outer (peer : client) (m : M unit) (k : nat) :
  try_except m (outer_handler peer) k =
  match m k with
  | (t, k1, Ok a) => (t, k1, Ok a)
  | (t, k1, Exc e) => handled peer t k1 e
  end.
Proof.
  unfold try_except, handled. destruct (m k) as [[t k1] [a|e]]; [done|].
  rewrite outer_handler_page. destruct (error_page e) as [c|]; [|done].
  cbn. unfold socket, socket_event, socket_result. by destruct (peer k1).
Qed.

(** [serve_stream] with its [try] resolved: one case per way through. *)
Lemma serve_stream_run
  (cfg opts : gmap string yaml) (b : backend) (peer : client) (name : string) (k : nat) :
  serve_stream cfg opts b peer name k =
  if negb (name_ok name)
  then ([socket_event peer k (SendError 404 "Not Found")], S k, socket_result peer k)
  else
    match cfg !! name with
    | None => ([socket_event peer k (SendError 404 "Not Found")], S k, socket_result peer k)
    | Some desc =>
        if negb (truthy (route_url desc))
        then ([socket_event peer k
                 (SendError 500 ("No URL configured for stream '" +:+ name +:+ "'"))],
              S k, socket_result peer k)
        else
          match b (session_options opts) (route_url desc) with
          | Exc e =>
              handled peer (options_set opts ++ [Raised (Streams (route_url desc)) e]) k e
          | Ok [] =>
              match peer k with
              | None =>
                  (options_set opts
                     ++ [Returned (Streams (route_url desc));
                         Returned (SendError 404 "No streams available")],
                   S k, Ok tt)
              | Some e =>
                  handled peer
                    (options_set opts
                       ++ [Returned (Streams (route_url desc));
                           Raised (SendError 404 "No streams available") e])
                    (S k) e
              end
          | Ok streams =>
              match select streams with
              | Exc e =>
                  handled peer (options_set opts ++ [Returned (Streams (route_url desc))]) k e
              | Ok v =>
                  match peer k with
                  | Some e =>
                      handled peer
                        (removelast (setup opts (route_url desc)) ++ [Raised EndHeaders e])
                        (S k) e
                  | None =>
                      match v_open v with
                      | Exc e =>
                          handled peer
                            (setup opts (route_url desc) ++ [Raised (Open v) e]) (S k) e
                      | Ok h =>
                          match relay peer name (buffer_size opts) h (S k) with
                          | (t, k', Ok a) =>
                              (preamble opts (route_url desc) v ++ t, k', Ok a)
                          | (t, k', Exc e) =>
                              handled peer (preamble opts (route_url desc) v ++ t) k' e
                          end
                      end
                  end
              end
          end
    end.
Proof.
  unfold serve_stream.
  destruct (name_ok name); cbn [negb];
    [|unfold send_error, socket, socket_event, socket_result; by destruct (peer k)].
  destruct (cfg !! name) as [desc|];
    [|unfold send_error, socket, socket_event, socket_result; by destruct (peer k)].
  destruct (truthy (route_url desc)); cbn [negb];
    [|unfold send_error, socket, socket_event, socket_result; by destruct (peer k)].
  unfold stream_url, bind at 1 2 3 4, emit.
  rewrite try_except_outer.
  unfold bind at 1, answer.
  destruct (b (session_options opts) (route_url desc)) as [[|kv streams']|e].
  - unfold send_error, socket. destruct (peer k); [|done].
    unfold handled. by destruct (error_page _).
  - unfold bind at 1. destruct (select (kv :: streams')) as [v|e]; cbn [lift ret raise].
    + unfold bind, send_response, send_header, end_headers, socket, emit, answer.
      destruct (peer k) as [e|]; [unfold handled; by destruct (error_page _)|].
      destruct (v_open v) as [h|e]; [|unfold handled; by destruct (error_page _)].
      destruct (relay peer name (buffer_size opts) h (S k)) as [[t k'] [a|e]]; [done|].
      unfold handled. by destruct (error_page _).
    + unfold handled. by destruct (error_page _).
  - unfold handled. by destruct (error_page _).
Qed.

Lemma handles_app (t1 t2 : list event) : handles (t1 ++ t2) = handles t1 + handles t2.
Proof. unfold handles. by rewrite List.filter_app, length_app. Qed.

Lemma relay_handles (peer : client) (name : string) (bs : yaml) (h : handle) (k : nat) :
  handles (trace_of (relay peer name bs h k)) = 0.
Proof.
  pose proof (relay_calls peer name bs h k) as H.
  induction H as [|ev t Hev _ IH]; [done|].
  change (ev :: t) with ([ev] ++ t). rewrite handles_app, IH.
  destruct ev as [[] | ]; done.
Qed.

Lemma handled_counts (peer : client) (t : list event) (k : nat) (e : exn) :
  closes (trace_of (handled peer t k e)) = closes t
  /\ handles (trace_of (handled peer t k e)) = handles t.
Proof.
  unfold handled, error_page, socket_event.
  destruct (exn_cls e); unfold trace_of; cbn [fst snd]; try done;
    rewrite closes_app, handles_app; destruct (peer k); cbn; lia.
Qed.

(** X4: a request for a well-formed name that is not a key of the table is
    answered by the single call [send_error(404, "Not Found")]: no option is
    set and the backend is not called. *)
Theorem X4_unknown_route
  (cfg opts : gmap string yaml) (b : backend) (peer : client) (name : string) (k : nat) :
  name_ok name = true ->
  cfg !! name = None ->
  serve_stream cfg opts b peer name k =
  ([socket_event peer k (SendError 404 "Not Found")], S k, socket_result peer k).
Proof. intros Hname Hcfg. by rewrite serve_stream_run, Hname, Hcfg. Qed.

Lemma X4_witness :
  serve_stream foo_config ∅ (one_stream (Exc broken_pipe)) patient "bar" 0 =
  ([socket_event patient 0 (SendError 404 "Not Found")], 1, socket_result patient 0).
Proof.
  apply (X4_unknown_route foo_config ∅ (one_stream (Exc broken_pipe)) patient "bar" 0);
    reflexivity.
Defined.

(** X5: when [session.streams(url)] raises, nothing of a 200 response is
    written: after the four options and the failed call the handler makes
    the one [send_error] of the clause that catches the exception (502 for
    [NoPluginError], 503 for [NoStreamsError], 500 with the message for
    [StreamError] and for any other [Exception]); an exception that is not
    an [Exception] leaves the handler. *)
Theorem X5_resolution_error
  (cfg opts : gmap string yaml) (b : backend) (peer : client) (name : string)
  (desc : yaml) (e : exn) (k : nat) :
  name_ok name = true ->
  cfg !! name = Some desc ->
  truthy (route_url desc) = true ->
  b (session_options opts) (route_url desc) = Exc e ->
  serve_stream cfg opts b peer name k =
  match exn_cls e with
  | NoPluginError =>
      (options_set opts
         ++ [Raised (Streams (route_url desc)) e;
             socket_event peer k (SendError 502 "No plugin found for this stream URL")],
       S k, socket_result peer k)
  | NoStreamsError =>
      (options_set opts
         ++ [Raised (Streams (route_url desc)) e;
             socket_event peer k (SendError 503 "No streams available from source")],
       S k, socket_result peer k)
  | StreamError =>
      (options_set opts
         ++ [Raised (Streams (route_url desc)) e;
             socket_event peer k (SendError 500 ("Stream error: " +:+ exn_str e))],
       S k, socket_result peer k)
  | BaseExc => (options_set opts ++ [Raised (Streams (route_url desc)) e], k, Exc e)
  | _ =>
      (options_set opts
         ++ [Raised (Streams (route_url desc)) e;
             socket_event peer k (SendError 500 ("Server error: " +:+ exn_str e))],
       S k, socket_result peer k)
  end.
Proof.
  intros Hname Hcfg Hurl Hb.
  rewrite serve_stream_run, Hname, Hcfg. cbn [negb]. rewrite Hurl, Hb. cbn [negb].
  unfold handled, error_page. destruct (exn_cls e); by rewrite <- ?app_assoc.
Qed.

Lemma X5_witness :
  serve_stream foo_config ∅ (fun _ _ => Exc (MkExn NoPluginError "No plugin")) patient "foo" 0 =
  (options_set ∅
     ++ [Raised (Streams (YStr "http://x/y.m3u8")) (MkExn NoPluginError "No plugin");
         socket_event patient 0 (SendError 502 "No plugin found for this stream URL")],
   1, socket_result patient 0).
Proof.
  apply (X5_resolution_error foo_config ∅ (fun _ _ => Exc (MkExn NoPluginError "No plugin"))
           patient "foo" (YStr "http://x/y.m3u8") (MkExn NoPluginError "No plugin") 0);
    reflexivity.
Defined.

(** X6: when the backend returns an empty dict of streams the handler answers
    [send_error(404, "No streams available")] and opens nothing; if that very
    call raises on the socket, the clause of line 132 answers with a second
    [send_error], 500 with the message of the socket error. *)
Theorem X6_no_streams
  (cfg opts : gmap string yaml) (b : backend) (peer : client) (name : string)
  (desc : yaml) (k : nat) :
  name_ok name = true ->
  cfg !! name = Some desc ->
  truthy (route_url desc) = true ->
  b (session_options opts) (route_url desc) = Ok [] ->
  serve_stream cfg opts b peer name k =
  match peer k with
  | None =>
      (options_set opts
         ++ [Returned (Streams (route_url desc));
             Returned (SendError 404 "No streams available")],
       S k, Ok tt)
  | Some e =>
      handled peer
        (options_set opts
           ++ [Returned (Streams (route_url desc));
               Raised (SendError 404 "No streams available") e])
        (S k) e
  end.
Proof.
  intros Hname Hcfg Hurl Hb.
  rewrite serve_stream_run, Hname, Hcfg. cbn [negb]. by rewrite Hurl, Hb.
Qed.

Lemma X6_witness :
  serve_stream foo_config ∅ (fun _ _ => Ok []) patient "foo" 0 =
  match patient 0 with
  | None =>
      (options_set ∅
         ++ [Returned (Streams (YStr "http://x/y.m3u8"));
             Returned (SendError 404 "No streams available")],
       1, Ok tt)
  | Some e =>
      handled patient
        (options_set ∅
           ++ [Returned (Streams (YStr "http://x/y.m3u8"));
               Raised (SendError 404 "No streams available") e])
        1 e
  end.
Proof.
  apply (X6_no_streams foo_config ∅ (fun _ _ => Ok []) patient "foo"
           (YStr "http://x/y.m3u8") 0); reflexivity.
Defined.

(** X7: when the write of the 200 head raises, [open()] is not called: the
    run is the four options, [session.streams], the head, and the
    [send_error] of the clause that catches the socket error. *)
Theorem X7_head_write_fails
  (cfg opts : gmap string yaml) (b : backend) (peer : client) (name : string)
  (desc : yaml) (streams : list (string * variant)) (e : exn) (k : nat) :
  name_ok name = true ->
  cfg !! name = Some desc ->
  truthy (route_url desc) = true ->
  b (session_options opts) (route_url desc) = Ok streams ->
  streams <> [] ->
  peer k = Some e ->
  serve_stream cfg opts b peer name k =
    handled peer
      (options_set opts
         ++ [Returned (Streams (route_url desc));
             Returned (SendResponse 200);
             Returned (SendHeader "Content-Type" "video/MP2T");
             Returned (SendHeader "Transfer-Encoding" "chunked");
             Returned (SendHeader "Cache-Control" "no-cache");
             Raised EndHeaders e])
      (S k) e
  /\ opens (trace_of (serve_stream cfg opts b peer name k)) = [].
Proof.
  intros Hname Hcfg Hurl Hb Hne Hk.
  destruct (select_total streams Hne) as [v Hsel].
  assert (serve_stream cfg opts b peer name k =
          handled peer
            (options_set opts
               ++ [Returned (Streams (route_url desc));
                   Returned (SendResponse 200);
                   Returned (SendHeader "Content-Type" "video/MP2T");
                   Returned (SendHeader "Transfer-Encoding" "chunked");
                   Returned (SendHeader "Cache-Control" "no-cache");
                   Raised EndHeaders e])
            (S k) e) as Hrun.
  { rewrite serve_stream_run, Hname, Hcfg. cbn [negb]. rewrite Hurl, Hb. cbn [negb].
    destruct streams as [|kv streams']; [done|]. by rewrite Hsel, Hk. }
  split; [exact Hrun|]. rewrite Hrun.
  unfold handled, error_page, socket_event.
  destruct (exn_cls e); unfold trace_of; cbn [fst snd]; try done;
    rewrite opens_app; by destruct (peer (S k)).
Qed.

Lemma X7_witness :
  opens (trace_of (serve_stream foo_config ∅
                     (one_stream (Ok (MkHandle [] (Ok tt)))) (hangup_at 0) "foo" 0)) = [].
Proof.
  refine (proj2 (X7_head_write_fails foo_config ∅ (one_stream (Ok (MkHandle [] (Ok tt))))
                   (hangup_at 0) "foo" (YStr "http://x/y.m3u8")
                   [("best", MkVariant true (Ok (MkHandle [] (Ok tt))))] broken_pipe 0
                   _ _ _ _ _ _)); try reflexivity.
  discriminate.
Defined.

(** X8: an upstream read that raises after the response has begun, [close()]
    returning.  The stream is closed before anything else is answered.  If
    the exception is a [BrokenPipeError], a [ConnectionResetError] or a
    [ConnectionAbortedError], it is taken for a client disconnect: a line is
    printed and the handler returns.  If it is another [Exception], the
    clause that catches it calls [send_error] (502, 503 or 500) although the
    200 head and the chunks of the earlier reads are already written.  If it
    is not an [Exception], it leaves the handler and nothing is answered. *)
Theorem X8_read_error_mid_stream
  (cfg opts : gmap string yaml) (b : backend) (peer : client) (name : string)
  (desc : yaml) (streams : list (string * variant)) (v : variant)
  (ds : list bytes) (e : exn) (rest : list (result bytes)) (k : nat) :
  name_ok name = true ->
  cfg !! name = Some desc ->
  truthy (route_url desc) = true ->
  b (session_options opts) (route_url desc) = Ok streams ->
  select streams = Ok v ->
  v_open v = Ok (MkHandle (map Ok ds ++ Exc e :: rest) (Ok tt)) ->
  Forall (fun d => d <> []) ds ->
  (forall j, j < 1 + 3 * length ds -> peer (k + j) = None) ->
  serve_stream cfg opts b peer name k =
  let relayed :=
    preamble opts (route_url desc) v ++ flat_map (cycle (buffer_size opts)) ds
    ++ [Raised (Read (buffer_size opts)) e] in
  let k' := S k + 3 * length ds in
  match exn_cls e with
  | BrokenPipeError | ConnectionResetError | ConnectionAbortedError =>
      (relayed
         ++ [Returned (Print ("Client disconnected from stream '" +:+ name +:+ "'"));
             Returned Close],
       k', Ok tt)
  | NoPluginError =>
      (relayed
         ++ [Returned Close;
             socket_event peer k' (SendError 502 "No plugin found for this stream URL")],
       S k', socket_result peer k')
  | NoStreamsError =>
      (relayed
         ++ [Returned Close;
             socket_event peer k' (SendError 503 "No streams available from source")],
       S k', socket_result peer k')
  | StreamError =>
      (relayed
         ++ [Returned Close;
             socket_event peer k' (SendError 500 ("Stream error: " +:+ exn_str e))],
       S k', socket_result peer k')
  | OtherException =>
      (relayed
         ++ [Returned Close;
             socket_event peer k' (SendError 500 ("Server error: " +:+ exn_str e))],
       S k', socket_result peer k')
  | BaseExc => (relayed ++ [Returned Close], k', Exc e)
  end.
Proof.
  intros Hname Hcfg Hurl Hb Hsel Hopen Hne Hok.
  assert (peer k = None) as Hk by (rewrite <- (Nat.add_0_r k); apply Hok; lia).
  rewrite serve_stream_run, Hname, Hcfg. cbn [negb]. rewrite Hurl, Hb. cbn [negb].
  pose proof (select_nonempty _ _ Hsel) as Hs.
  destruct streams as [|kv streams']; [done|].
  rewrite Hsel, Hk, Hopen.
  rewrite relay_read_raises; [|done|].
  - cbv zeta. unfold relay_outcome, goodbye, client_gone, handled, error_page.
    destruct (exn_cls e) eqn:Hcls; rewrite ?Hcls; cbn [app answer_event];
      by rewrite <- ?app_assoc.
  - intros j Hj. replace (S k + j) with (k + S j) by lia. apply Hok. lia.
Qed.

Lemma X8_witness :
  serve_stream foo_config ∅
    (one_stream (Ok (MkHandle [Ok (zeros 188);
                               Exc (MkExn ConnectionResetError "reset by peer")]
                       (Ok tt))))
    patient "foo" 0 =
  (preamble ∅ (YStr "http://x/y.m3u8")
     (MkVariant true
        (Ok (MkHandle [Ok (zeros 188); Exc (MkExn ConnectionResetError "reset by peer")]
               (Ok tt))))
     ++ flat_map (cycle (YInt 8388608)) [zeros 188]
     ++ [Raised (Read (YInt 8388608)) (MkExn ConnectionResetError "reset by peer")]
     ++ [Returned (Print "Client disconnected from stream 'foo'");
         Returned Close],
   4, Ok tt).
Proof.
  rewrite (X8_read_error_mid_stream foo_config ∅
             (one_stream (Ok (MkHandle [Ok (zeros 188);
                                        Exc (MkExn ConnectionResetError "reset by peer")]
                                (Ok tt))))
             patient "foo" (YStr "http://x/y.m3u8")
             [("best", MkVariant true
                         (Ok (MkHandle [Ok (zeros 188);
                                        Exc (MkExn ConnectionResetError "reset by peer")]
                                (Ok tt))))]
             (MkVariant true
                (Ok (MkHandle [Ok (zeros 188);
                               Exc (MkExn ConnectionResetError "reset by peer")]
                       (Ok tt))))
             [zeros 188] (MkExn ConnectionResetError "reset by peer") [] 0);
    try reflexivity.
  repeat constructor; discriminate.
Defined.

(** X9: in every run of the handler, [close()] is called as many times as
    [open()] returned a handle, and that is at most once: a handle is never
    left open, and nothing is closed that was not opened. *)
Theorem X9_close_matches_open
  (cfg opts : gmap string yaml) (b : backend) (peer : client) (name : string) (k : nat) :
  closes (trace_of (serve_stream cfg opts b peer name k)) =
    handles (trace_of (serve_stream cfg opts b peer name k))
  /\ handles (trace_of (serve_stream cfg opts b peer name k)) <= 1.
Proof.
  rewrite serve_stream_run.
  assert (forall c, closes [socket_event peer k (SendError 404 c)] = 0
                    /\ handles [socket_event peer k (SendError 404 c)] = 0) as H404.
  { intros c. unfold socket_event. by destruct (peer k). }
  destruct (name_ok name); cbn [negb];
    [|unfold trace_of; cbn [fst snd]; destruct (H404 "Not Found") as [-> ->]; lia].
  destruct (cfg !! name) as [desc|];
    [|unfold trace_of; cbn [fst snd]; destruct (H404 "Not Found") as [-> ->]; lia].
  destruct (truthy (route_url desc)); cbn [negb];
    [|unfold trace_of, socket_event; cbn [fst snd]; destruct (peer k); cbn; lia].
  destruct (b (session_options opts) (route_url desc)) as [[|kv streams']|e].
  - destruct (peer k) as [e|].
    + destruct (handled_counts peer
                  (options_set opts
                     ++ [Returned (Streams (route_url desc));
                         Raised (SendError 404 "No streams available") e])
                  (S k) e) as [-> ->].
      cbn. lia.
    + cbn. lia.
  - destruct (select (kv :: streams')) as [v|e].
    + destruct (peer k) as [e|].
      * destruct (handled_counts peer
                    (removelast (setup opts (route_url desc)) ++ [Raised EndHeaders e])
                    (S k) e) as [-> ->].
        cbn. lia.
      * destruct (v_open v) as [h|e].
        -- pose proof (relay_closes peer name (buffer_size opts) h (S k)) as Hc.
           pose proof (relay_handles peer name (buffer_size opts) h (S k)) as Hh.
           destruct (relay peer name (buffer_size opts) h (S k)) as [[t k'] [[]|e]];
             unfold trace_of in Hc, Hh; cbn [fst snd] in Hc, Hh.
           ++ unfold trace_of. cbn [fst snd]. rewrite closes_app, handles_app, Hc, Hh.
              cbn. lia.
           ++ destruct (handled_counts peer (preamble opts (route_url desc) v ++ t) k' e)
                as [-> ->].
              rewrite closes_app, handles_app, Hc, Hh. cbn. lia.
        -- destruct (handled_counts peer
                       (setup opts (route_url desc) ++ [Raised (Open v) e]) (S k) e)
             as [-> ->].
           cbn. lia.
    + destruct (handled_counts peer
                  (options_set opts ++ [Returned (Streams (route_url desc))]) k e)
        as [-> ->].
      cbn. lia.
  - destruct (handled_counts peer
                (options_set opts ++ [Raised (Streams (route_url desc)) e]) k e)
      as [-> ->].
    cbn. lia.
Qed.

(** X11: no body byte is written in a run in which [open()] returned no
    handle: the error paths of the handler write nothing through
    [wfile.write]. *)
Theorem X11_no_body_without_handle
  (cfg opts : gmap string yaml) (b : backend) (peer : client) (name : string) (k : nat) :
  handles (trace_of (serve_stream cfg opts b peer name k)) = 0 ->
  Forall (fun ev => forall data, call_of ev <> Write data)
    (trace_of (serve_stream cfg opts b peer name k)).
Proof.
  assert (forall t k' e,
            Forall (fun ev => forall data, call_of ev <> Write data) t ->
            Forall (fun ev => forall data, call_of ev <> Write data)
              (trace_of (handled peer t k' e))) as Hh.
  { intros t k' e Ht. unfold handled, error_page, socket_event.
    destruct (exn_cls e); unfold trace_of; cbn [fst snd]; try done;
      rewrite Forall_app; (split; [done|]); destruct (peer k'); by repeat constructor. }
  rewrite serve_stream_run.
  destruct (name_ok name); cbn [negb];
    [|intros _; unfold trace_of, socket_event; cbn [fst snd];
      destruct (peer k); by repeat constructor].
  destruct (cfg !! name) as [desc|];
    [|intros _; unfold trace_of, socket_event; cbn [fst snd];
      destruct (peer k); by repeat constructor].
  destruct (truthy (route_url desc)); cbn [negb];
    [|intros _; unfold trace_of, socket_event; cbn [fst snd];
      destruct (peer k); by repeat constructor].
  destruct (b (session_options opts) (route_url desc)) as [[|kv streams']|e].
  - intros _. destruct (peer k) as [e|]; [apply Hh|]; by repeat constructor.
  - destruct (select (kv :: streams')) as [v|e];
      [|intros _; apply Hh; by repeat constructor].
    destruct (peer k) as [e|]; [intros _; apply Hh; by repeat constructor|].
    destruct (v_open v) as [h|e]; [|intros _; apply Hh; by repeat constructor].
    intros H0. exfalso.
    destruct (relay peer name (buffer_size opts) h (S k)) as [[t k'] [[]|e]].
    + unfold trace_of in H0. cbn [fst snd] in H0. rewrite handles_app in H0.
      cbn in H0. lia.
    + destruct (handled_counts peer (preamble opts (route_url desc) v ++ t) k' e)
        as [_ Hc].
      rewrite Hc, handles_app in H0. cbn in H0. lia.
  - intros _. apply Hh. by repeat constructor.
Qed.

Lemma X11_witness :
  Forall (fun ev => forall data, call_of ev <> Write data)
    (trace_of (serve_stream foo_config ∅ (one_stream (Exc broken_pipe)) patient "foo" 0)).
Proof.
  apply (X11_no_body_without_handle foo_config ∅ (one_stream (Exc broken_pipe))
           patient "foo" 0).
  reflexivity.
Defined.

(** ** The dispatch *)

Lemma rstrip_slash_app (path : string) :
  rstrip_slash (path +:+ "/") = rstrip_slash path.
Proof.
  induction path as [|c path IH]; [done|].
  change (String c path +:+ "/") with (String c (path +:+ "/")).
  cbn [rstrip_slash]. by rewrite IH.
Qed.

Lemma lstrip_slash_app (path : string) :
  lstrip_slash (path +:+ "/") = lstrip_slash path +:+ "/"
  \/ (lstrip_slash (path +:+ "/") = "" /\ lstrip_slash path = "").
Proof.
  induction path as [|c path IH]; [by right|].
  change (String c path +:+ "/") with (String c (path +:+ "/")).
  cbn [lstrip_slash]. destruct (Ascii.eqb c "/"); [done | by left].
Qed.

Lemma strip_slash_leading (path : string) : strip_slash ("/" +:+ path) = strip_slash path.
Proof. reflexivity. Qed.

Lemma strip_slash_trailing (path : string) : strip_slash (path +:+ "/") = strip_slash path.
Proof.
  unfold strip_slash.
  destruct (lstrip_slash_app path) as [-> | [-> ->]]; [apply rstrip_slash_app | done].
Qed.

Lemma serve_stream_bad_name
  (cfg opts : gmap string yaml) (b : backend) (peer : client) (name : string) (k : nat) :
  name_ok name = false ->
  serve_stream cfg opts b peer name k =
  ([socket_event peer k (SendError 404 "Not Found")], S k, socket_result peer k).
Proof. intros Hname. by rewrite serve_stream_run, Hname. Qed.

(** X12: a path that is empty or ["health"] once its slashes are stripped
    gets the health check: the 200 head with the JSON content type and one
    write, of the bytes [{"status": "ok", "streams": ], the number of entries
    of the routing table in decimal, and [}].  The options and the backend
    play no part, and a route named ["health"] in the table is never
    served. *)
Theorem X12_health_check
  (cfg opts : gmap string yaml) (b : backend) (peer : client) (path : string) (k : nat) :
  strip_slash path = "" \/ strip_slash path = "health" ->
  do_GET cfg opts b peer path k =
  match peer k with
  | Some e =>
      ([Returned (SendResponse 200);
        Returned (SendHeader "Content-Type" "application/json");
        Raised EndHeaders e],
       S k, Exc e)
  | None =>
      ([Returned (SendResponse 200);
        Returned (SendHeader "Content-Type" "application/json");
        Returned EndHeaders;
        socket_event peer (S k)
          (Write (["{"; "034"; "s"; "t"; "a"; "t"; "u"; "s"; "034"; ":"; " ";
                   "034"; "o"; "k"; "034"; ","; " ";
                   "034"; "s"; "t"; "r"; "e"; "a"; "m"; "s"; "034"; ":"; " "]%byte
                  ++ list_byte_of_string
                       (DecimalString.NilZero.string_of_uint (Nat.to_uint (size cfg)))
                  ++ ["}"]%byte))],
       S (S k), socket_result peer (S k))
  end.
Proof.
  intros Hpath. unfold do_GET.
  assert (String.eqb (strip_slash path) "" || String.eqb (strip_slash path) "health" = true)
    as ->.
  { destruct Hpath as [-> | ->]; reflexivity. }
  unfold serve_health_check, bind, send_response, send_header, end_headers, wfile_write,
    socket, emit, socket_event, socket_result.
  destruct (peer k); [done|]. by destruct (peer (S k)).
Qed.

Lemma X12_witness :
  do_GET (<["health" := YStr "http://x/y.m3u8"]> foo_config) ∅
    (one_stream (Exc broken_pipe)) patient "/health/" 0 =
  ([Returned (SendResponse 200);
    Returned (SendHeader "Content-Type" "application/json");
    Returned EndHeaders;
    Returned
      (Write ["{"; "034"; "s"; "t"; "a"; "t"; "u"; "s"; "034"; ":"; " ";
              "034"; "o"; "k"; "034"; ","; " ";
              "034"; "s"; "t"; "r"; "e"; "a"; "m"; "s"; "034"; ":"; " "; "2"; "}"]%byte)],
   2, Ok tt).
Proof.
  rewrite (X12_health_check (<["health" := YStr "http://x/y.m3u8"]> foo_config) ∅
             (one_stream (Exc broken_pipe)) patient "/health/" 0).
  - vm_compute. reflexivity.
  - right. reflexivity.
Defined.

(** X13: slashes at either end of the request path do not matter: the path
    with one more slash in front or at the back is handled as the path
    itself. *)
Theorem X13_outer_slashes_ignored
  (cfg opts : gmap string yaml) (b : backend) (peer : client) (path : string) (k : nat) :
  do_GET cfg opts b peer ("/" +:+ path) k = do_GET cfg opts b peer path k
  /\ do_GET cfg opts b peer (path +:+ "/") k = do_GET cfg opts b peer path k.
Proof.
  unfold do_GET. by rewrite strip_slash_leading, strip_slash_trailing.
Qed.

(** X14: a request whose path, once its outer slashes are stripped, holds a
    character that the check of line 50 refuses (a slash inside, a dot, an
    upper-case letter, a percent sign, ...) is answered by the single call
    [send_error(404, "Not Found")]; neither the table nor the backend is
    consulted. *)
Theorem X14_bad_path_rejected
  (cfg opts : gmap string yaml) (b : backend) (peer : client) (path : string)
  (c : ascii) (k : nat) :
  In c (list_ascii_of_string (strip_slash path)) ->
  name_char c = false ->
  do_GET cfg opts b peer path k =
  ([socket_event peer k (SendError 404 "Not Found")], S k, socket_result peer k).
Proof.
  intros Hin Hc.
  assert (name_ok (strip_slash path) = false) as Hname.
  { unfold name_ok. apply not_true_is_false. intros Hall.
    rewrite forallb_forall in Hall. specialize (Hall c Hin). congruence. }
  unfold do_GET.
  destruct (String.eqb_spec (strip_slash path) "") as [Heq|_];
    [by rewrite Heq in Hname|].
  destruct (String.eqb_spec (strip_slash path) "health") as [Heq|_];
    [by rewrite Heq in Hname|].
  cbn [orb]. by apply serve_stream_bad_name.
Qed.

Lemma X14_witness :
  do_GET foo_config ∅ (one_stream (Exc broken_pipe)) patient "/../etc/passwd" 0 =
  ([socket_event patient 0 (SendError 404 "Not Found")], 1, socket_result patient 0).
Proof.
  apply (X14_bad_path_rejected foo_config ∅ (one_stream (Exc broken_pipe)) patient
           "/../etc/passwd" "." 0).
  - left. reflexivity.
  - reflexivity.
Defined.

(** X15: the check of line 50, on the characters a request path can hold: a
    name passes exactly when each of its characters is a lowercase ASCII
    letter, an ASCII digit, a hyphen, or one of the Latin-1 characters of
    [latin1_name_char]; the empty name passes. *)
Theorem X15_accepted_names (name : string) :
  name_ok name = true <->
  forall c, In c (list_ascii_of_string name) ->
            ascii_name_char c = true \/ latin1_name_char c = true.
Proof.
  unfold name_ok. rewrite forallb_forall. split; intros H c Hin.
  - specialize (H c Hin). rewrite name_char_table in H. by apply orb_true_iff.
  - rewrite name_char_table. apply orb_true_iff. by apply H.
Qed.
